(** * Polaris schema-check engine: pkg/validator/schema.go

    A shallow embedding of the check resolution and application engine
    (package [validator], file [schema.go]) and the properties its
    specification states about it.

    Go maps are finite maps ([gmap]) with string keys; a [nil] map is
    [None] and an allocated one [Some m].  A Go [(value, error)] result
    whose value is ignored on error is a sum [error + value]; the entry
    points, which return [(ResultSet, error)] with either component
    possibly [nil], return a pair of options.  Strings are byte strings,
    compared bytewise as Go does. *)

From Stdlib Require Import Ascii String.
From stdpp Require Import base option list sorting gmap fin_maps strings.

Local Open Scope string_scope.

(** Go's [error] values: only their message matters here. *)
Definition error : Type := string.

(** ** Collaborating packages (data only) *)

(** [k8s.io/apimachinery/pkg/apis/meta/v1]: the part of [metaV1.Object]
    the engine reads through [GetNamespace], [GetName], [GetAnnotations]. *)
Module metaV1.
Record ObjectMeta : Type := {
  Namespace : string;
  Name : string;
  Annotations : gmap string string
}.
Definition GetNamespace (m : ObjectMeta) : string := Namespace m.
Definition GetName (m : ObjectMeta) : string := Name m.
Definition GetAnnotations (m : ObjectMeta) : gmap string string := Annotations m.
End metaV1.

(** [k8s.io/api/core/v1]: a container has a name; a pod specification
    has its two container lists.  The remaining fields are only read by
    the checks' predicates and are kept as one opaque component. *)
Module corev1.
Record Container : Type := {
  Name : string;
  Fields : string
}.
Record PodSpec : Type := {
  InitContainers : list Container;
  Containers : list Container;
  Fields_ : string
}.
End corev1.

(** [k8s.io/apimachinery/pkg/apis/meta/v1/unstructured]. *)
Module unstructured.
Record Unstructured : Type := {
  Kind : string;
  Metadata : metaV1.ObjectMeta;
  Object : string
}.
Definition GetKind (u : Unstructured) : string := Kind u.
End unstructured.

(** [github.com/fairwindsops/polaris/pkg/config]. *)
Module config.
Definition Severity : Type := string.
Definition TargetKind : Type := string.

(** Modelled from the spec: the [TargetKind] constants are declared in
    the [config] package; the specification names the four scopes Pod,
    Controller, Container and Other.  The engine only compares them for
    equality. *)
Definition TargetController : TargetKind := "Controller".
Definition TargetPod : TargetKind := "Pod".
Definition TargetContainer : TargetKind := "Container".
Definition TargetOther : TargetKind := "Other".

Record SchemaCheck : Type := {
  ID : string;
  Category : string;
  SuccessMessage : string;
  FailureMessage : string;
  Target : TargetKind;
  SchemaTarget : TargetKind;
  Schema : string
}.

(** [check.ID = checkID] on a copy of the struct. *)
Definition set_ID (check : SchemaCheck) (checkID : string) : SchemaCheck :=
  {| ID := checkID;
     Category := Category check;
     SuccessMessage := SuccessMessage check;
     FailureMessage := FailureMessage check;
     Target := Target check;
     SchemaTarget := SchemaTarget check;
     Schema := Schema check |}.

(** The zero value [config.SchemaCheck{}]. *)
Definition zero : SchemaCheck :=
  {| ID := EmptyString;
     Category := EmptyString;
     SuccessMessage := EmptyString;
     FailureMessage := EmptyString;
     Target := EmptyString;
     SchemaTarget := EmptyString;
     Schema := EmptyString |}.

Record Configuration : Type := {
  Checks : gmap string Severity;
  CustomChecks : gmap string SchemaCheck;
  Exemptions : list string;
  DisallowExemptions : bool
}.
End config.

(** [github.com/fairwindsops/polaris/pkg/kube]. *)
Module kube.
Record GenericWorkload : Type := {
  Kind : string;
  PodSpec : corev1.PodSpec;
  ObjectMeta : metaV1.ObjectMeta;
  OriginalObjectJSON : string
}.
End kube.

(** One record of a [ResultSet]. *)
Module ResultMessage.
Record t : Type := {
  ID : string;
  Message : string;
  Success : bool;
  Severity : config.Severity;
  Category : string
}.
End ResultMessage.

(** [type ResultSet map[string]ResultMessage]. *)
Abbreviation ResultSet := (gmap string ResultMessage.t).

(** ** Collaborating packages (behaviour)

    The methods of [config.Configuration] and [config.SchemaCheck], the
    apimachinery accessor and the packr box with its YAML decoder live
    outside this file; the engine is parametric in them. *)

Class Actionable : Type := {
  (** [conf.IsActionable(ruleID, namespace, name, containerName)] *)
  Configuration_IsActionable :
    config.Configuration → string → string → string → string → bool;
  (** [check.IsActionable(target, kind, isInitContainer)] *)
  SchemaCheck_IsActionable :
    config.SchemaCheck → config.TargetKind → string → bool → bool
}.

Class Predicates : Type := {
  CheckPod : config.SchemaCheck → corev1.PodSpec → error + bool;
  CheckController : config.SchemaCheck → string → error + bool;
  CheckContainer : config.SchemaCheck → corev1.Container → error + bool;
  CheckObject : config.SchemaCheck → unstructured.Unstructured → error + bool
}.

Class Accessors : Type := {
  (** [meta.Accessor(unst)] *)
  meta_Accessor : unstructured.Unstructured → error + metaV1.ObjectMeta
}.

Class SchemaBox : Type := {
  (** [schemaBox.Find(name)] *)
  schemaBox_Find : string → error + string;
  (** The documents a [yaml.NewYAMLOrJSONDecoder] over the given bytes
      yields before [io.EOF]: each [Decode(&check)] writes into the
      struct it is handed and returns an error or nil; a call that
      fails may have written part of its document already. *)
  yaml_Decode : string → list (config.SchemaCheck → config.SchemaCheck * option error)
}.

(** ** Package-level variables *)

Definition checkOrder : list string := [
  (* Controller Checks *)
  "multipleReplicasForDeployment";
  (* Pod checks *)
  "hostIPCSet";
  "hostPIDSet";
  "hostNetworkSet";
  (* Container checks *)
  "memoryLimitsMissing";
  "memoryRequestsMissing";
  "cpuLimitsMissing";
  "cpuRequestsMissing";
  "readinessProbeMissing";
  "livenessProbeMissing";
  "pullPolicyNotAlways";
  "tagNotSpecified";
  "hostPortSet";
  "runAsRootAllowed";
  "runAsPrivileged";
  "notReadOnlyRootFilesystem";
  "privilegeEscalationAllowed";
  "dangerousCapabilities";
  "insecureCapabilities";
  "priorityClassNotSet";
  (* Other checks *)
  "tlsSettingsMissing";
  "pdbDisruptionsAllowedGreaterThanZero"
].

(** ** Library functions used by the engine *)

(** [strings.ToLower] on the ASCII letters.  On other input Go maps
    runes by their Unicode lower case; no rune outside [A-Z] has one of
    the letters of "true" as its lower case, so the comparisons against
    "true" below are not affected. *)
Definition lowerByte (c : ascii) : ascii :=
  let n := nat_of_ascii c in
  if (65 <=? n)%nat && (n <=? 90)%nat then ascii_of_nat (n + 32) else c.

Fixpoint strings_ToLower (s : string) : string :=
  match s with
  | EmptyString => EmptyString
  | String c s' => String (lowerByte c) (strings_ToLower s')
  end.

(** [annot[key]]: a missing key (or a nil map) reads as the zero value. *)
Definition index (annot : gmap string string) (key : string) : string :=
  default EmptyString (annot !! key).

(** [sort.Strings]: ascending bytewise order. *)
Definition sort_Strings (keys : list string) : list string :=
  merge_sort String.le keys.

(** ** Loading the built-in catalog *)

Section Loading.
Context `{SchemaBox}.

Fixpoint parseCheck_loop
    (d : list (config.SchemaCheck → config.SchemaCheck * option error))
    (check : config.SchemaCheck) : config.SchemaCheck * option error :=
  match d with
  | [] => (check, None)
  | decode :: d' =>
      match decode check with
      | (check', Some err) => (check', Some ("Decoding schema check failed: " +:+ err))
      | (check', None) => parseCheck_loop d' check'
      end
  end.

Definition parseCheck (rawBytes : string) : config.SchemaCheck * option error :=
  parseCheck_loop (yaml_Decode rawBytes) config.zero.

(** The body of [init]'s loop; [None] is a panic. *)
Fixpoint init_loop (checkIDs : list string)
    (builtInChecks : gmap string config.SchemaCheck)
    : option (gmap string config.SchemaCheck) :=
  match checkIDs with
  | [] => Some builtInChecks
  | checkID :: rest =>
      match schemaBox_Find (checkID +:+ ".yaml") with
      | inl _ => None
      | inr contents =>
          match parseCheck contents with
          | (_, Some _) => None
          | (check, None) =>
              init_loop rest (<[checkID := config.set_ID check checkID]> builtInChecks)
          end
      end
  end.

(** [init], for a given declaration order of the built-in checks. *)
Definition init_with (order : list string) : option (gmap string config.SchemaCheck) :=
  init_loop order ∅.

Definition init : option (gmap string config.SchemaCheck) := init_with checkOrder.
End Loading.

(** ** The engine *)

(** The three results of [resolveCheck]: [inl err] is [(nil, err)],
    [inr None] is [(nil, nil)] and [inr (Some check)] is [(&check, nil)]. *)
Abbreviation Resolution := (error + option config.SchemaCheck)%type.

Definition exemptionAnnotationKey : string := "polaris.fairwinds.com/exempt".

(** [fmt.Sprintf(exemptionAnnotationPattern, checkID)] with the pattern
    ["polaris.fairwinds.com/%s-exempt"]. *)
Definition exemptionAnnotationPattern (checkID : string) : string :=
  "polaris.fairwinds.com/" +:+ checkID +:+ "-exempt".

Definition hasExemptionAnnotation (ctrl : kube.GenericWorkload) (checkID : string) : bool :=
  let annot := metaV1.GetAnnotations (kube.ObjectMeta ctrl) in
  let val := index annot exemptionAnnotationKey in
  if decide (strings_ToLower val = "true") then true
  else
    let checkKey := exemptionAnnotationPattern checkID in
    let val := index annot checkKey in
    if decide (strings_ToLower val = "true") then true
    else false.

(** [for key := range m] visits the keys in an order Go leaves open;
    [map_to_list] fixes one, and [sort.Strings] makes the choice
    immaterial (see [getSortedKeys_any_order]). *)
Definition getSortedKeys (m : gmap string config.Severity) : list string :=
  let keys := (map_to_list m).*1 in
  sort_Strings keys.

Definition makeResult (conf : config.Configuration) (check : config.SchemaCheck)
    (passes : bool) : ResultMessage.t :=
  {| ResultMessage.ID := config.ID check;
     ResultMessage.Severity := default EmptyString (config.Checks conf !! config.ID check);
     ResultMessage.Category := config.Category check;
     ResultMessage.Success := passes;
     ResultMessage.Message :=
       if passes then config.SuccessMessage check else config.FailureMessage check |}.

Section Engine.
Context `{Actionable} `{Predicates} `{Accessors}.

(** The package-level catalog, filled in by [init] and only read here. *)
Variable builtInChecks : gmap string config.SchemaCheck.

(** Lines 88-91 of [resolveCheck]: the custom checks first, then the
    built-in ones. *)
Definition lookupCheck (conf : config.Configuration) (checkID : string)
    : option config.SchemaCheck :=
  match config.CustomChecks conf !! checkID with
  | Some check => Some check
  | None => builtInChecks !! checkID
  end.

Definition resolveCheck (conf : config.Configuration) (checkID kind : string)
    (target : config.TargetKind) (meta : metaV1.ObjectMeta)
    (containerName : string) (isInitContainer : bool) : Resolution :=
  match lookupCheck conf checkID with
  | None => inl ("Check " +:+ checkID +:+ " not found")
  | Some check =>
      let namespace := metaV1.GetNamespace meta in
      let name := metaV1.GetName meta in
      if negb (Configuration_IsActionable conf (config.ID check) namespace name containerName)
      then inr None
      else if negb (SchemaCheck_IsActionable check target kind isInitContainer)
      then inr None
      else inr (Some check)
  end.

Fixpoint applyPodSchemaChecks_loop (conf : config.Configuration)
    (controller : kube.GenericWorkload) (checkIDs : list string)
    (results : ResultSet) : option ResultSet * option error :=
  match checkIDs with
  | [] => (Some results, None)
  | checkID :: rest =>
      if negb (config.DisallowExemptions conf) && hasExemptionAnnotation controller checkID
      then applyPodSchemaChecks_loop conf controller rest results
      else
        match resolveCheck conf checkID (kube.Kind controller) config.TargetPod
                (kube.ObjectMeta controller) EmptyString false with
        | inl err => (None, Some err)
        | inr None => applyPodSchemaChecks_loop conf controller rest results
        | inr (Some check) =>
            match CheckPod check (kube.PodSpec controller) with
            | inl err => (None, Some err)
            | inr passes =>
                applyPodSchemaChecks_loop conf controller rest
                  (<[config.ID check := makeResult conf check passes]> results)
            end
        end
  end.

Definition applyPodSchemaChecks (conf : config.Configuration)
    (controller : kube.GenericWorkload) : option ResultSet * option error :=
  let results : ResultSet := ∅ in
  let checkIDs := getSortedKeys (config.Checks conf) in
  applyPodSchemaChecks_loop conf controller checkIDs results.

Fixpoint applyControllerSchemaChecks_loop (conf : config.Configuration)
    (controller : kube.GenericWorkload) (checkIDs : list string)
    (results : ResultSet) : option ResultSet * option error :=
  match checkIDs with
  | [] => (Some results, None)
  | checkID :: rest =>
      if negb (config.DisallowExemptions conf) && hasExemptionAnnotation controller checkID
      then applyControllerSchemaChecks_loop conf controller rest results
      else
        match resolveCheck conf checkID (kube.Kind controller) config.TargetController
                (kube.ObjectMeta controller) EmptyString false with
        | inl err => (None, Some err)
        | inr None => applyControllerSchemaChecks_loop conf controller rest results
        | inr (Some check) =>
            match CheckController check (kube.OriginalObjectJSON controller) with
            | inl err => (None, Some err)
            | inr passes =>
                applyControllerSchemaChecks_loop conf controller rest
                  (<[config.ID check := makeResult conf check passes]> results)
            end
        end
  end.

Definition applyControllerSchemaChecks (conf : config.Configuration)
    (controller : kube.GenericWorkload) : option ResultSet * option error :=
  let results : ResultSet := ∅ in
  let checkIDs := getSortedKeys (config.Checks conf) in
  applyControllerSchemaChecks_loop conf controller checkIDs results.

(** [podCopy := controller.PodSpec] with its two container lists
    overwritten. *)
Definition podCopy (controller : kube.GenericWorkload) (container : corev1.Container)
    : corev1.PodSpec :=
  {| corev1.InitContainers := [];
     corev1.Containers := [container];
     corev1.Fields_ := corev1.Fields_ (kube.PodSpec controller) |}.

Fixpoint applyContainerSchemaChecks_loop (conf : config.Configuration)
    (controller : kube.GenericWorkload) (container : corev1.Container)
    (isInit : bool) (checkIDs : list string)
    (results : ResultSet) : option ResultSet * option error :=
  match checkIDs with
  | [] => (Some results, None)
  | checkID :: rest =>
      if negb (config.DisallowExemptions conf) && hasExemptionAnnotation controller checkID
      then applyContainerSchemaChecks_loop conf controller container isInit rest results
      else
        match resolveCheck conf checkID (kube.Kind controller) config.TargetContainer
                (kube.ObjectMeta controller) (corev1.Name container) isInit with
        | inl err => (None, Some err)
        | inr None =>
            applyContainerSchemaChecks_loop conf controller container isInit rest results
        | inr (Some check) =>
            match
              (if decide (config.SchemaTarget check = config.TargetPod)
               then CheckPod check (podCopy controller container)
               else CheckContainer check container)
            with
            | inl err => (None, Some err)
            | inr passes =>
                applyContainerSchemaChecks_loop conf controller container isInit rest
                  (<[config.ID check := makeResult conf check passes]> results)
            end
        end
  end.

Definition applyContainerSchemaChecks (conf : config.Configuration)
    (controller : kube.GenericWorkload) (container : corev1.Container)
    (isInit : bool) : option ResultSet * option error :=
  let results : ResultSet := ∅ in
  let checkIDs := getSortedKeys (config.Checks conf) in
  applyContainerSchemaChecks_loop conf controller container isInit checkIDs results.

(** The loop shared by [applyOtherSchemaChecks] (the empty target) and
    [applyArbitrarySchemaChecks] (target [config.TargetOther]), whose
    bodies differ in that argument only. *)
Fixpoint applyObjectSchemaChecks_loop (conf : config.Configuration)
    (target : config.TargetKind)
    (unst : unstructured.Unstructured) (objMeta : metaV1.ObjectMeta)
    (checkIDs : list string)
    (results : ResultSet) : option ResultSet * option error :=
  match checkIDs with
  | [] => (Some results, None)
  | checkID :: rest =>
      match resolveCheck conf checkID (unstructured.GetKind unst) target
              objMeta EmptyString false with
      | inl err => (None, Some err)
      | inr None => applyObjectSchemaChecks_loop conf target unst objMeta rest results
      | inr (Some check) =>
          match CheckObject check unst with
          | inl err => (None, Some err)
          | inr passes =>
              applyObjectSchemaChecks_loop conf target unst objMeta rest
                (<[config.ID check := makeResult conf check passes]> results)
          end
      end
  end.

Definition applyOtherSchemaChecks (conf : config.Configuration)
    (unst : unstructured.Unstructured) : option ResultSet * option error :=
  let results : ResultSet := ∅ in
  let checkIDs := getSortedKeys (config.Checks conf) in
  match meta_Accessor unst with
  | inl err => (Some results, Some err)
  | inr objMeta => applyObjectSchemaChecks_loop conf EmptyString unst objMeta checkIDs results
  end.

Definition applyArbitrarySchemaChecks (conf : config.Configuration)
    (unst : unstructured.Unstructured) : option ResultSet * option error :=
  let results : ResultSet := ∅ in
  match meta_Accessor unst with
  | inl err => (Some results, Some err)
  | inr objMeta =>
      let checkIDs := getSortedKeys (config.Checks conf) in
      applyObjectSchemaChecks_loop conf config.TargetOther unst objMeta checkIDs results
  end.

End Engine.

(** ** The entry points as one family

    The five entry points run the same loop; they differ in whether the
    exemption filter is consulted, in the arguments handed to
    [resolveCheck] and in the fragment the predicate is run on.  A
    [Scope] records those differences, [step] is one turn of the loop
    and [run] the loop itself; [applySchemaChecks_run] below shows that
    every entry point is [run] at its scope. *)

Inductive EntryPoint : Type :=
  | PodChecks (controller : kube.GenericWorkload)
  | ControllerChecks (controller : kube.GenericWorkload)
  | ContainerChecks (controller : kube.GenericWorkload)
      (container : corev1.Container) (isInit : bool)
  | OtherChecks (unst : unstructured.Unstructured)
  | ArbitraryChecks (unst : unstructured.Unstructured).

Record Scope : Type := {
  sc_exempt : string → bool;
  sc_kind : string;
  sc_target : config.TargetKind;
  sc_meta : metaV1.ObjectMeta;
  sc_containerName : string;
  sc_isInit : bool;
  sc_evaluate : config.SchemaCheck → error + bool
}.

Inductive Outcome : Type :=
  | Skipped
  | Aborted (err : error)
  | Recorded (check : config.SchemaCheck) (passes : bool).

Section Family.
Context `{Actionable} `{Predicates} `{Accessors}.
Variable builtInChecks : gmap string config.SchemaCheck.

Definition applySchemaChecks (conf : config.Configuration) (e : EntryPoint)
    : option ResultSet * option error :=
  match e with
  | PodChecks controller => applyPodSchemaChecks builtInChecks conf controller
  | ControllerChecks controller => applyControllerSchemaChecks builtInChecks conf controller
  | ContainerChecks controller container isInit =>
      applyContainerSchemaChecks builtInChecks conf controller container isInit
  | OtherChecks unst => applyOtherSchemaChecks builtInChecks conf unst
  | ArbitraryChecks unst => applyArbitrarySchemaChecks builtInChecks conf unst
  end.

Definition workloadScope (conf : config.Configuration) (controller : kube.GenericWorkload)
    (target : config.TargetKind) (containerName : string) (isInit : bool)
    (evaluate : config.SchemaCheck → error + bool) : Scope :=
  {| sc_exempt := λ checkID,
       negb (config.DisallowExemptions conf) && hasExemptionAnnotation controller checkID;
     sc_kind := kube.Kind controller;
     sc_target := target;
     sc_meta := kube.ObjectMeta controller;
     sc_containerName := containerName;
     sc_isInit := isInit;
     sc_evaluate := evaluate |}.

Definition objectScope (unst : unstructured.Unstructured) (objMeta : metaV1.ObjectMeta)
    (target : config.TargetKind) : Scope :=
  {| sc_exempt := λ _, false;
     sc_kind := unstructured.GetKind unst;
     sc_target := target;
     sc_meta := objMeta;
     sc_containerName := EmptyString;
     sc_isInit := false;
     sc_evaluate := λ check, CheckObject check unst |}.

(** The predicate a container-scope pass runs for a check. *)
Definition evaluateContainer (controller : kube.GenericWorkload)
    (container : corev1.Container) (check : config.SchemaCheck) : error + bool :=
  if decide (config.SchemaTarget check = config.TargetPod)
  then CheckPod check (podCopy controller container)
  else CheckContainer check container.

(** The scope of an entry point, or the error of [meta.Accessor]. *)
Definition scopeOf (conf : config.Configuration) (e : EntryPoint) : error + Scope :=
  match e with
  | PodChecks controller =>
      inr (workloadScope conf controller config.TargetPod EmptyString false
             (λ check, CheckPod check (kube.PodSpec controller)))
  | ControllerChecks controller =>
      inr (workloadScope conf controller config.TargetController EmptyString false
             (λ check, CheckController check (kube.OriginalObjectJSON controller)))
  | ContainerChecks controller container isInit =>
      inr (workloadScope conf controller config.TargetContainer
             (corev1.Name container) isInit (evaluateContainer controller container))
  | OtherChecks unst =>
      match meta_Accessor unst with
      | inl err => inl err
      | inr objMeta => inr (objectScope unst objMeta EmptyString)
      end
  | ArbitraryChecks unst =>
      match meta_Accessor unst with
      | inl err => inl err
      | inr objMeta => inr (objectScope unst objMeta config.TargetOther)
      end
  end.

Definition step (conf : config.Configuration) (sc : Scope) (checkID : string) : Outcome :=
  if sc_exempt sc checkID then Skipped
  else
    match resolveCheck builtInChecks conf checkID (sc_kind sc) (sc_target sc)
            (sc_meta sc) (sc_containerName sc) (sc_isInit sc) with
    | inl err => Aborted err
    | inr None => Skipped
    | inr (Some check) =>
        match sc_evaluate sc check with
        | inl err => Aborted err
        | inr passes => Recorded check passes
        end
    end.

Fixpoint run (conf : config.Configuration) (sc : Scope) (checkIDs : list string)
    (results : ResultSet) : option ResultSet * option error :=
  match checkIDs with
  | [] => (Some results, None)
  | checkID :: rest =>
      match step conf sc checkID with
      | Skipped => run conf sc rest results
      | Aborted err => (None, Some err)
      | Recorded check passes =>
          run conf sc rest (<[config.ID check := makeResult conf check passes]> results)
      end
  end.

End Family.

(** ** Notions the specification uses *)

(** The workload whose annotations the exemption filter reads, for the
    entry points that take one. *)
Definition workloadOf (e : EntryPoint) : option kube.GenericWorkload :=
  match e with
  | PodChecks controller | ControllerChecks controller
  | ContainerChecks controller _ _ => Some controller
  | OtherChecks _ | ArbitraryChecks _ => None
  end.

(** The value "true" in any letter case. *)
Definition trueInAnyCase (val : string) : Prop :=
  ∃ c1 c2 c3 c4 : ascii,
    val = String c1 (String c2 (String c3 (String c4 EmptyString))) ∧
    (c1 = "t"%char ∨ c1 = "T"%char) ∧ (c2 = "r"%char ∨ c2 = "R"%char) ∧
    (c3 = "u"%char ∨ c3 = "U"%char) ∧ (c4 = "e"%char ∨ c4 = "E"%char).

(** A catalog is keyed by ID when every definition is stored under its
    own [ID].  [init] establishes this for the built-in catalog (line
    68); for the custom checks it is the data model's invariant ("custom
    checks, keyed by ID in the active configuration"). *)
Definition keyedByID (catalog : gmap string config.SchemaCheck) : Prop :=
  map_Forall (λ key check, config.ID check = key) catalog.

(** An annotation key that the exemption filter can read: the blanket
    key, or the per-check key of some check ID. *)
Definition isExemptionKey (key : string) : bool :=
  bool_decide (key = exemptionAnnotationKey)
  || bool_decide
       (key = exemptionAnnotationPattern (substring 22 (String.length key - 29) key)).

(** The metadata of a manifest with all exemption annotations removed. *)
Definition withoutExemptionAnnotations (meta : metaV1.ObjectMeta) : metaV1.ObjectMeta :=
  {| metaV1.Namespace := metaV1.Namespace meta;
     metaV1.Name := metaV1.Name meta;
     metaV1.Annotations :=
       filter (λ kv, isExemptionKey kv.1 = false) (metaV1.Annotations meta) |}.

(** [controller'] is the workload of the manifest of [controller] with
    all exemption annotations removed: the kind and the pod
    specification are the same and the metadata has lost those
    annotations.  The serialised original of a manifest contains its
    annotations, so that of [controller'] is another byte string than
    that of [controller]; the engine never looks into it, and it is left
    open here. *)
Definition exemptionsRemoved (controller controller' : kube.GenericWorkload) : Prop :=
  kube.Kind controller' = kube.Kind controller
  ∧ kube.PodSpec controller' = kube.PodSpec controller
  ∧ kube.ObjectMeta controller'
    = withoutExemptionAnnotations (kube.ObjectMeta controller).

(** The same object with all exemption annotations removed. *)
Definition unstructuredWithoutExemptions (unst : unstructured.Unstructured)
    : unstructured.Unstructured :=
  {| unstructured.Kind := unstructured.Kind unst;
     unstructured.Metadata := withoutExemptionAnnotations (unstructured.Metadata unst);
     unstructured.Object := unstructured.Object unst |}.

(** Two workloads that differ at most in the containers of their pod
    specification (and in the serialised original, which lists them). *)
Definition sameButContainers (w1 w2 : kube.GenericWorkload) : Prop :=
  kube.Kind w1 = kube.Kind w2 ∧
  kube.ObjectMeta w1 = kube.ObjectMeta w2 ∧
  corev1.Fields_ (kube.PodSpec w1) = corev1.Fields_ (kube.PodSpec w2).

(** Modelled from the spec: the [ResultSet] type and the code that reads
    a finished set are declared outside [schema.go]; the specification
    has the set sorted by check ID when it is read ("the Result
    Aggregator must sort by check ID at read time rather than relying on
    insertion order of whatever container backs the ResultSet"). *)
Definition ResultSet_iterate (results : ResultSet) : list ResultMessage.t :=
  omap (λ checkID, results !! checkID) (sort_Strings (map_to_list results).*1).

(** Strict bytewise order on check IDs. *)
Definition String_lt (s1 s2 : string) : Prop := String.le s1 s2 ∧ s1 ≠ s2.

(** Two scopes agree on a list of check IDs when they exempt the same
    of them, hand [resolveCheck] the same arguments, and evaluate alike
    every definition those IDs are looked up to. *)
Definition agreeOn (builtInChecks : gmap string config.SchemaCheck)
    (conf : config.Configuration) (checkIDs : list string) (sc1 sc2 : Scope) : Prop :=
  (∀ checkID, checkID ∈ checkIDs → sc_exempt sc1 checkID = sc_exempt sc2 checkID)
  ∧ sc_kind sc1 = sc_kind sc2
  ∧ sc_target sc1 = sc_target sc2
  ∧ metaV1.Namespace (sc_meta sc1) = metaV1.Namespace (sc_meta sc2)
  ∧ metaV1.Name (sc_meta sc1) = metaV1.Name (sc_meta sc2)
  ∧ sc_containerName sc1 = sc_containerName sc2
  ∧ sc_isInit sc1 = sc_isInit sc2
  ∧ (∀ checkID check, checkID ∈ checkIDs →
       lookupCheck builtInChecks conf checkID = Some check →
       sc_evaluate sc1 check = sc_evaluate sc2 check).



(** What [init] loads for a check ID: the file's contents and the
    definition parsed from them, if both steps succeed. *)
Definition loaded `{SchemaBox} (checkID : string) : option config.SchemaCheck :=
  match schemaBox_Find (checkID +:+ ".yaml") with
  | inl _ => None
  | inr contents =>
      match parseCheck contents with
      | (_, Some _) => None
      | (check, None) => Some (config.set_ID check checkID)
      end
  end.

(** ** A small instance

    Concrete collaborators, catalog, configurations and manifests, used
    to run the engine on examples. *)

Module Demo.

(** Everything outside the [kube-system] namespace is actionable; a
    check applies to the target it declares. *)
Definition actionable : Actionable := {|
  Configuration_IsActionable := λ conf ruleID namespace name containerName,
    bool_decide (namespace ≠ "kube-system");
  SchemaCheck_IsActionable := λ check target kind isInit,
    bool_decide (config.Target check = target)
|}.

(** A schema is the verdict it gives; a malformed one cannot be run. *)
Definition verdict (check : config.SchemaCheck) : error + bool :=
  if decide (config.Schema check = "malformed") then inl "malformed schema"
  else inr (bool_decide (config.Schema check = "pass")).

(** A pod-shaped schema may also count the containers it is shown. *)
Definition verdictPod (check : config.SchemaCheck) (pod : corev1.PodSpec) : error + bool :=
  if decide (config.Schema check = "oneContainer")
  then inr (bool_decide (length (corev1.Containers pod) = 1
                         ∧ corev1.InitContainers pod = []))
  else verdict check.

Definition predicates : Predicates := {|
  CheckPod := verdictPod;
  CheckController := λ check _, verdict check;
  CheckContainer := λ check _, verdict check;
  CheckObject := λ check _, verdict check
|}.

(** Schemas that look at the annotations of the object they are handed:
    "noExemptAnnotation" passes on an object that does not carry the
    blanket exemption annotation. *)
Definition verdictObject (check : config.SchemaCheck) (unst : unstructured.Unstructured)
    : error + bool :=
  if decide (config.Schema check = "noExemptAnnotation")
  then inr (bool_decide (metaV1.Annotations (unstructured.Metadata unst)
                           !! exemptionAnnotationKey = None))
  else verdict check.

(** The same on a serialised controller: the key does not occur in it. *)
Definition verdictController (check : config.SchemaCheck) (originalObjectJSON : string)
    : error + bool :=
  if decide (config.Schema check = "noExemptAnnotation")
  then inr (bool_decide (String.index 0 exemptionAnnotationKey originalObjectJSON = None))
  else verdict check.

Definition predicatesOnAnnotations : Predicates := {|
  CheckPod := verdictPod;
  CheckController := verdictController;
  CheckContainer := λ check _, verdict check;
  CheckObject := verdictObject
|}.

Definition accessors : Accessors := {|
  meta_Accessor := λ unst, inr (unstructured.Metadata unst)
|}.

Definition schemaBox : SchemaBox := {|
  schemaBox_Find := λ name, inr name;
  yaml_Decode := λ rawBytes,
    [λ check, ({| config.ID := config.ID check;
                  config.Category := "Security";
                  config.SuccessMessage := "ok";
                  config.FailureMessage := "not ok";
                  config.Target := config.TargetContainer;
                  config.SchemaTarget := config.TargetContainer;
                  config.Schema := rawBytes |}, None)]
|}.

Definition check (checkID : string) (target schemaTarget : config.TargetKind)
    (schema : string) : config.SchemaCheck :=
  {| config.ID := checkID;
     config.Category := "Security";
     config.SuccessMessage := "ok";
     config.FailureMessage := "not ok";
     config.Target := target;
     config.SchemaTarget := schemaTarget;
     config.Schema := schema |}.

Definition builtIn : gmap string config.SchemaCheck :=
  <["hostIPCSet" := check "hostIPCSet" config.TargetPod config.TargetPod "pass"]>
  (<["memoryLimitsMissing" :=
       check "memoryLimitsMissing" config.TargetContainer config.TargetContainer "fail"]>
  (<["tlsSettingsMissing" :=
       check "tlsSettingsMissing" EmptyString EmptyString "fail"]> ∅)).

Definition configuration (checks : gmap string config.Severity)
    (customChecks : gmap string config.SchemaCheck) (disallow : bool)
    : config.Configuration :=
  {| config.Checks := checks;
     config.CustomChecks := customChecks;
     config.Exemptions := [];
     config.DisallowExemptions := disallow |}.

Definition severities : gmap string config.Severity :=
  <["memoryLimitsMissing" := "danger"]>
  (<["hostIPCSet" := "warning"]>
  (<["tlsSettingsMissing" := "warning"]> ∅)).

Definition conf : config.Configuration := configuration severities ∅ false.

(** Exemptions disallowed. *)
Definition confStrict : config.Configuration := configuration severities ∅ true.

(** A custom [hostIPCSet] that fails where the built-in one passes. *)
Definition customHostIPC : config.SchemaCheck :=
  check "hostIPCSet" config.TargetPod config.TargetPod "fail".

Definition confOverride : config.Configuration :=
  configuration severities (<["hostIPCSet" := customHostIPC]> ∅) false.

(** Only [hostIPCSet] is given a severity. *)
Definition confOnlyIPC : config.Configuration :=
  configuration (<["hostIPCSet" := "warning"]> ∅) ∅ false.

(** Two custom pod checks, declared in descending order of ID. *)
Definition confTwo : config.Configuration :=
  configuration
    (<["zCheck" := "danger"]> (<["aCheck" := "warning"]> ∅))
    (<["zCheck" := check "zCheck" config.TargetPod config.TargetPod "pass"]>
     (<["aCheck" := check "aCheck" config.TargetPod config.TargetPod "fail"]> ∅))
    false.

(** A container check whose schema is pod-shaped and counts containers. *)
Definition confPodShaped : config.Configuration :=
  configuration
    (<["oneContainer" := "danger"]> ∅)
    (<["oneContainer" :=
         check "oneContainer" config.TargetContainer config.TargetPod "oneContainer"]> ∅)
    false.

(** A configuration that names [myOrgCheck], which no catalog defines. *)
Definition confMissing : config.Configuration :=
  configuration (<["myOrgCheck" := "warning"]> severities) ∅ false.

(** The same, with a custom check sorted before it whose schema cannot
    be run. *)
Definition confMalformed : config.Configuration :=
  configuration
    (<["aCustomCheck" := "danger"]> (<["myOrgCheck" := "warning"]> severities))
    (<["aCustomCheck" :=
         check "aCustomCheck" config.TargetPod config.TargetPod "malformed"]> ∅)
    false.

Definition app : corev1.Container :=
  {| corev1.Name := "app"; corev1.Fields := EmptyString |}.
Definition sidecar : corev1.Container :=
  {| corev1.Name := "sidecar"; corev1.Fields := EmptyString |}.

Definition objectMeta (namespace : string) (annotations : gmap string string)
    : metaV1.ObjectMeta :=
  {| metaV1.Namespace := namespace;
     metaV1.Name := "web";
     metaV1.Annotations := annotations |}.

Definition workload (namespace : string) (containers : list corev1.Container)
    (annotations : gmap string string) : kube.GenericWorkload :=
  {| kube.Kind := "Deployment";
     kube.PodSpec := {| corev1.InitContainers := [];
                        corev1.Containers := containers;
                        corev1.Fields_ := EmptyString |};
     kube.ObjectMeta := objectMeta namespace annotations;
     kube.OriginalObjectJSON := "{}" |}.

Definition plain : kube.GenericWorkload := workload "default" [app] ∅.

Definition twoContainers : kube.GenericWorkload := workload "default" [app; sidecar] ∅.

Definition inKubeSystem : kube.GenericWorkload := workload "kube-system" [app] ∅.

Definition exemptAll : kube.GenericWorkload :=
  workload "default" [app] {[exemptionAnnotationKey := "True"]}.

Definition exemptMemory : kube.GenericWorkload :=
  workload "default" [app] {[exemptionAnnotationPattern "memoryLimitsMissing" := "True"]}.

Definition ingress (annotations : gmap string string) : unstructured.Unstructured :=
  {| unstructured.Kind := "Ingress";
     unstructured.Metadata := objectMeta "default" annotations;
     unstructured.Object := "{}" |}.

(** A box in which one file is missing and one does not parse: the
    second document of the latter fails after its first field has been
    written. *)
Definition partialBox : SchemaBox := {|
  schemaBox_Find := λ name,
    if decide (name = "hostPIDSet.yaml") then inl "file does not exist" else inr name;
  yaml_Decode := λ rawBytes,
    if decide (rawBytes = "hostNetworkSet.yaml")
    then [λ check, (config.set_ID check "first", None);
          λ check, (config.set_ID check "second", Some "yaml: did not find expected key");
          λ check, (config.set_ID check "third", None)]
    else yaml_Decode (SchemaBox := schemaBox) rawBytes
|}.

(** The same workload with another original JSON and another pod. *)
Definition otherJSON : kube.GenericWorkload :=
  {| kube.Kind := kube.Kind plain;
     kube.PodSpec := kube.PodSpec plain;
     kube.ObjectMeta := kube.ObjectMeta plain;
     kube.OriginalObjectJSON := "{replicas: 3}" |}.

(** Exemptions disallowed, and two custom checks whose schema looks for
    the blanket exemption annotation: one for other objects, one for
    controllers. *)
Definition confOnAnnotations : config.Configuration :=
  configuration
    (<["objectNotExempt" := "warning"]> (<["controllerNotExempt" := "warning"]> ∅))
    (<["objectNotExempt" :=
         check "objectNotExempt" EmptyString EmptyString "noExemptAnnotation"]>
     (<["controllerNotExempt" :=
          check "controllerNotExempt" config.TargetController config.TargetController
            "noExemptAnnotation"]> ∅))
    true.

(** A controller manifest that carries the blanket exemption annotation,
    and the same manifest without it, each with its serialised original. *)
Definition exemptAllSerialised : kube.GenericWorkload :=
  {| kube.Kind := "Deployment";
     kube.PodSpec := kube.PodSpec exemptAll;
     kube.ObjectMeta := kube.ObjectMeta exemptAll;
     kube.OriginalObjectJSON :=
       "{kind: Deployment, metadata: {namespace: default, name: web, annotations: {polaris.fairwinds.com/exempt: True}}}" |}.

Definition plainSerialised : kube.GenericWorkload :=
  {| kube.Kind := "Deployment";
     kube.PodSpec := kube.PodSpec plain;
     kube.ObjectMeta := kube.ObjectMeta plain;
     kube.OriginalObjectJSON :=
       "{kind: Deployment, metadata: {namespace: default, name: web}}" |}.

(** A configuration whose checks all apply to other objects. *)
Definition confIngress : config.Configuration :=
  configuration (<["tlsSettingsMissing" := "warning"]> ∅) ∅ false.

End Demo.

(** * Properties *)

(** ** The loop of every entry point is [run] *)

Section FamilyFacts.
Context `{Actionable} `{Predicates} `{Accessors}.
Variable builtInChecks : gmap string config.SchemaCheck.

Lemma applyPodSchemaChecks_loop_run conf controller checkIDs results :
  applyPodSchemaChecks_loop builtInChecks conf controller checkIDs results
  = run builtInChecks conf
      (workloadScope conf controller config.TargetPod EmptyString false
         (λ check, CheckPod check (kube.PodSpec controller)))
      checkIDs results.
Proof.
  revert results. induction checkIDs as [|checkID rest IH]; intros results; [done|].
  cbn [applyPodSchemaChecks_loop run]. unfold step. cbn [workloadScope sc_exempt
    sc_kind sc_target sc_meta sc_containerName sc_isInit sc_evaluate].
  destruct (negb _ && _); [apply IH|].
  destruct (resolveCheck _ _ _ _ _ _ _ _) as [err|[check|]]; [done| |apply IH].
  destruct (CheckPod _ _); [done|apply IH].
Qed.

Lemma applyControllerSchemaChecks_loop_run conf controller checkIDs results :
  applyControllerSchemaChecks_loop builtInChecks conf controller checkIDs results
  = run builtInChecks conf
      (workloadScope conf controller config.TargetController EmptyString false
         (λ check, CheckController check (kube.OriginalObjectJSON controller)))
      checkIDs results.
Proof.
  revert results. induction checkIDs as [|checkID rest IH]; intros results; [done|].
  cbn [applyControllerSchemaChecks_loop run]. unfold step. cbn [workloadScope sc_exempt
    sc_kind sc_target sc_meta sc_containerName sc_isInit sc_evaluate].
  destruct (negb _ && _); [apply IH|].
  destruct (resolveCheck _ _ _ _ _ _ _ _) as [err|[check|]]; [done| |apply IH].
  destruct (CheckController _ _); [done|apply IH].
Qed.

Lemma applyContainerSchemaChecks_loop_run conf controller container isInit checkIDs results :
  applyContainerSchemaChecks_loop builtInChecks conf controller container isInit
    checkIDs results
  = run builtInChecks conf
      (workloadScope conf controller config.TargetContainer (corev1.Name container)
         isInit (evaluateContainer controller container))
      checkIDs results.
Proof.
  revert results. induction checkIDs as [|checkID rest IH]; intros results; [done|].
  cbn [applyContainerSchemaChecks_loop run]. unfold step. cbn [workloadScope sc_exempt
    sc_kind sc_target sc_meta sc_containerName sc_isInit sc_evaluate].
  destruct (negb _ && _); [apply IH|].
  destruct (resolveCheck _ _ _ _ _ _ _ _) as [err|[check|]]; [done| |apply IH].
  unfold evaluateContainer.
  destruct (if decide _ then _ else _); [done|apply IH].
Qed.

Lemma applyObjectSchemaChecks_loop_run conf target unst objMeta checkIDs results :
  applyObjectSchemaChecks_loop builtInChecks conf target unst objMeta checkIDs results
  = run builtInChecks conf (objectScope unst objMeta target) checkIDs results.
Proof.
  revert results. induction checkIDs as [|checkID rest IH]; intros results; [done|].
  cbn [applyObjectSchemaChecks_loop run]. unfold step. cbn [objectScope sc_exempt
    sc_kind sc_target sc_meta sc_containerName sc_isInit sc_evaluate].
  destruct (resolveCheck _ _ _ _ _ _ _ _) as [err|[check|]]; [done| |apply IH].
  destruct (CheckObject _ _); [done|apply IH].
Qed.

(** Every entry point either stops at the accessor's error with the
    empty set it has allocated, or runs the loop at its scope over the
    sorted check IDs. *)
Lemma applySchemaChecks_run conf e :
  applySchemaChecks builtInChecks conf e
  = match scopeOf conf e with
    | inl err => (Some ∅, Some err)
    | inr sc => run builtInChecks conf sc (getSortedKeys (config.Checks conf)) ∅
    end.
Proof.
  destruct e as [w|w|w c i|u|u]; cbn [applySchemaChecks scopeOf].
  - apply applyPodSchemaChecks_loop_run.
  - apply applyControllerSchemaChecks_loop_run.
  - apply applyContainerSchemaChecks_loop_run.
  - unfold applyOtherSchemaChecks. destruct (meta_Accessor u); [done|].
    apply applyObjectSchemaChecks_loop_run.
  - unfold applyArbitrarySchemaChecks. destruct (meta_Accessor u); [done|].
    apply applyObjectSchemaChecks_loop_run.
Qed.

End FamilyFacts.

(** ** Sorting the check IDs *)

Lemma String_lt_le s1 s2 : String_lt s1 s2 → String.le s1 s2.
Proof. by intros [? _]. Qed.

#[local] Instance String_lt_trans : Transitive String_lt.
Proof.
  intros s1 s2 s3 [H12 N12] [H23 N23]. split; [by etrans|].
  intros ->. apply N12. by apply (anti_symm String.le).
Qed.

Lemma sort_Strings_Sorted keys : Sorted String.le (sort_Strings keys).
Proof. apply (Sorted_merge_sort String.le). Qed.

Lemma sort_Strings_Permutation keys : sort_Strings keys ≡ₚ keys.
Proof. apply (merge_sort_Permutation String.le). Qed.

(** The sorted list is the same whatever order the keys come in. *)
Lemma sort_Strings_any_order keys1 keys2 :
  keys1 ≡ₚ keys2 → sort_Strings keys1 = sort_Strings keys2.
Proof.
  intros Hp. apply (Sorted_unique String.le); try apply sort_Strings_Sorted.
  by rewrite !sort_Strings_Permutation.
Qed.

Lemma Sorted_le_NoDup_lt (l : list string) :
  Sorted String.le l → NoDup l → StronglySorted String_lt l.
Proof.
  intros Hs%(Sorted_StronglySorted String.le) Hn.
  induction Hs as [|x l Hs IH Hx]; [constructor|].
  apply NoDup_cons in Hn as [Hx' Hn]. constructor; [by apply IH|].
  apply Forall_forall. intros y Hy. split.
  - by eapply Forall_forall in Hx.
  - intros ->. done.
Qed.

Lemma sort_Strings_NoDup keys : NoDup keys → NoDup (sort_Strings keys).
Proof. intros. by rewrite sort_Strings_Permutation. Qed.

Lemma getSortedKeys_elem_of (m : gmap string config.Severity) key :
  key ∈ getSortedKeys m ↔ is_Some (m !! key).
Proof.
  unfold getSortedKeys. rewrite sort_Strings_Permutation.
  rewrite list_elem_of_fmap. split.
  - intros [[k v] [-> Hkv%elem_of_map_to_list]]. by exists v.
  - intros [v Hv]. exists (key, v). split; [done|]. by apply elem_of_map_to_list.
Qed.

Lemma getSortedKeys_NoDup (m : gmap string config.Severity) : NoDup (getSortedKeys m).
Proof. apply sort_Strings_NoDup, NoDup_fst_map_to_list. Qed.

Lemma getSortedKeys_sorted (m : gmap string config.Severity) :
  StronglySorted String_lt (getSortedKeys m).
Proof.
  apply Sorted_le_NoDup_lt; [apply sort_Strings_Sorted|apply getSortedKeys_NoDup].
Qed.

(** Whatever order [range] visits the keys in, the sorted slice is the
    same. *)
Lemma getSortedKeys_any_order (m : gmap string config.Severity) (keys : list string) :
  keys ≡ₚ (map_to_list m).*1 → sort_Strings keys = getSortedKeys m.
Proof. apply sort_Strings_any_order. Qed.

(** ** The exemption filter *)

Lemma lowerByte_cases (c lower upper : ascii) :
  lowerByte lower = lower → lowerByte upper = lower →
  c = lower ∨ c = upper → lowerByte c = lower.
Proof. by intros ?? [->| ->]. Qed.

Lemma strings_ToLower_true val : trueInAnyCase val → strings_ToLower val = "true".
Proof.
  intros (c1 & c2 & c3 & c4 & -> & H1 & H2 & H3 & H4). cbn [strings_ToLower].
  rewrite (lowerByte_cases c1 "t" "T"), (lowerByte_cases c2 "r" "R"),
    (lowerByte_cases c3 "u" "U"), (lowerByte_cases c4 "e" "E"); done.
Qed.

Ltac solve_lowerByte :=
  intros [[] [] [] [] [] [] [] []]; vm_compute; intros Heq;
  first [discriminate Heq | by left | by right].

Lemma lowerByte_t c : lowerByte c = "t"%char → c = "t"%char ∨ c = "T"%char.
Proof. revert c. solve_lowerByte. Qed.

Lemma lowerByte_r c : lowerByte c = "r"%char → c = "r"%char ∨ c = "R"%char.
Proof. revert c. solve_lowerByte. Qed.

Lemma lowerByte_u c : lowerByte c = "u"%char → c = "u"%char ∨ c = "U"%char.
Proof. revert c. solve_lowerByte. Qed.

Lemma lowerByte_e c : lowerByte c = "e"%char → c = "e"%char ∨ c = "E"%char.
Proof. revert c. solve_lowerByte. Qed.

(** The filter's test is exactly "true in any letter case". *)
Lemma strings_ToLower_true_iff val : strings_ToLower val = "true" ↔ trueInAnyCase val.
Proof.
  split; [|apply strings_ToLower_true].
  destruct val as [|c1 [|c2 [|c3 [|c4 [|c5 val]]]]]; try done.
  cbn [strings_ToLower]. intros [= H1 H2 H3 H4].
  exists c1, c2, c3, c4. split; [done|].
  split_and!; [by apply lowerByte_t|by apply lowerByte_r|by apply lowerByte_u
              |by apply lowerByte_e].
Qed.

Example strings_ToLower_mixed : strings_ToLower "TrUe" = "true".
Proof. reflexivity. Qed.

Example strings_ToLower_other : strings_ToLower "yes" ≠ "true".
Proof. intros Heq. discriminate Heq. Qed.

Example exemptionAnnotationPattern_memory :
  exemptionAnnotationPattern "memoryLimitsMissing"
  = "polaris.fairwinds.com/memoryLimitsMissing-exempt".
Proof. reflexivity. Qed.

Example getSortedKeys_severities :
  getSortedKeys Demo.severities = ["hostIPCSet"; "memoryLimitsMissing"; "tlsSettingsMissing"].
Proof. vm_compute. reflexivity. Qed.

Lemma hasExemptionAnnotation_blanket ctrl checkID val :
  metaV1.Annotations (kube.ObjectMeta ctrl) !! exemptionAnnotationKey = Some val →
  trueInAnyCase val →
  hasExemptionAnnotation ctrl checkID = true.
Proof.
  intros Hval Htrue%strings_ToLower_true. unfold hasExemptionAnnotation, index.
  unfold metaV1.GetAnnotations. rewrite Hval. cbn [default].
  by rewrite decide_True.
Qed.

Lemma hasExemptionAnnotation_check ctrl checkID val :
  metaV1.Annotations (kube.ObjectMeta ctrl) !! exemptionAnnotationPattern checkID
    = Some val →
  trueInAnyCase val →
  hasExemptionAnnotation ctrl checkID = true.
Proof.
  intros Hval Htrue%strings_ToLower_true. unfold hasExemptionAnnotation, index.
  unfold metaV1.GetAnnotations. rewrite Hval. cbn [default].
  destruct (decide _); [done|]. by rewrite decide_True.
Qed.

(** ** Resolution *)

Section ResolutionFacts.
Context `{Actionable}.
Variable builtInChecks : gmap string config.SchemaCheck.

Lemma lookupCheck_custom conf checkID custom :
  config.CustomChecks conf !! checkID = Some custom →
  lookupCheck builtInChecks conf checkID = Some custom.
Proof. unfold lookupCheck. by intros ->. Qed.

Lemma lookupCheck_None conf checkID :
  config.CustomChecks conf !! checkID = None →
  builtInChecks !! checkID = None →
  lookupCheck builtInChecks conf checkID = None.
Proof. unfold lookupCheck. by intros -> ->. Qed.

Lemma lookupCheck_keyed conf checkID check :
  keyedByID builtInChecks → keyedByID (config.CustomChecks conf) →
  lookupCheck builtInChecks conf checkID = Some check →
  config.ID check = checkID.
Proof.
  intros HB HC. unfold lookupCheck.
  destruct (config.CustomChecks conf !! checkID) as [c|] eqn:Hc.
  - intros [= <-]. by apply HC in Hc.
  - intros Hb. by apply HB in Hb.
Qed.

Lemma resolveCheck_Some conf checkID kind target meta containerName isInit check :
  resolveCheck builtInChecks conf checkID kind target meta containerName isInit
    = inr (Some check) →
  lookupCheck builtInChecks conf checkID = Some check.
Proof.
  unfold resolveCheck. destruct (lookupCheck _ _ _); [|done].
  destruct (negb _); [done|]. destruct (negb _); [done|]. by intros [= <-].
Qed.

Lemma resolveCheck_not_found conf checkID kind target meta containerName isInit err :
  resolveCheck builtInChecks conf checkID kind target meta containerName isInit
    = inl err ↔
  lookupCheck builtInChecks conf checkID = None
  ∧ err = "Check " +:+ checkID +:+ " not found".
Proof.
  unfold resolveCheck. destruct (lookupCheck _ _ _).
  - split; [|by intros [? _]].
    destruct (negb _); [done|]. by destruct (negb _).
  - split; [by intros [= <-]|by intros [_ ->]].
Qed.

End ResolutionFacts.

(** ** The loop *)

Section RunFacts.
Context `{Actionable}.
Variable builtInChecks : gmap string config.SchemaCheck.
Variable conf : config.Configuration.
Variable sc : Scope.

Lemma step_Recorded checkID check passes :
  step builtInChecks conf sc checkID = Recorded check passes →
  lookupCheck builtInChecks conf checkID = Some check
  ∧ sc_exempt sc checkID = false
  ∧ sc_evaluate sc check = inr passes.
Proof.
  unfold step. destruct (sc_exempt sc checkID); [done|].
  destruct (resolveCheck _ _ _ _ _ _ _ _) as [err|[c|]] eqn:Hr; [done| |done].
  destruct (sc_evaluate sc c) eqn:He; [done|]. intros [= <- <-].
  by apply resolveCheck_Some in Hr.
Qed.

Lemma step_exempt checkID :
  sc_exempt sc checkID = true → step builtInChecks conf sc checkID = Skipped.
Proof. unfold step. by intros ->. Qed.

(** The loop ends in one of two ways: a set and no error, or an error
    and no set. *)
Lemma run_result checkIDs results :
  (∃ results', run builtInChecks conf sc checkIDs results = (Some results', None))
  ∨ (∃ err, run builtInChecks conf sc checkIDs results = (None, Some err)).
Proof.
  revert results. induction checkIDs as [|checkID rest IH]; intros results.
  - left. by eexists.
  - cbn [run]. destruct (step _ _ _ _); [apply IH|right; by eexists|apply IH].
Qed.

Lemma run_app pre post results :
  run builtInChecks conf sc (pre ++ post) results
  = match run builtInChecks conf sc pre results with
    | (Some results', None) => run builtInChecks conf sc post results'
    | r => r
    end.
Proof.
  revert results. induction pre as [|checkID pre IH]; intros results; [done|].
  cbn [app run]. destruct (step _ _ _ _); [apply IH|done|apply IH].
Qed.

Lemma run_skip checkID rest results :
  step builtInChecks conf sc checkID = Skipped →
  run builtInChecks conf sc (checkID :: rest) results
  = run builtInChecks conf sc rest results.
Proof. cbn [run]. by intros ->. Qed.

Lemma run_all_skipped checkIDs results :
  (∀ checkID, checkID ∈ checkIDs → step builtInChecks conf sc checkID = Skipped) →
  run builtInChecks conf sc checkIDs results = (Some results, None).
Proof.
  induction checkIDs as [|checkID rest IH]; intros Hall; [done|].
  rewrite run_skip by (apply Hall; left). apply IH. intros ??. apply Hall. by right.
Qed.

(** A record of the finished set was there at the start or was made in
    one of the turns. *)
Lemma run_lookup checkIDs results results' key r :
  run builtInChecks conf sc checkIDs results = (Some results', None) →
  results' !! key = Some r →
  results !! key = Some r
  ∨ ∃ checkID check passes,
      checkID ∈ checkIDs
      ∧ step builtInChecks conf sc checkID = Recorded check passes
      ∧ config.ID check = key
      ∧ r = makeResult conf check passes.
Proof.
  revert results. induction checkIDs as [|checkID rest IH]; intros results.
  - intros [= ->]. by left.
  - cbn [run]. destruct (step _ _ _ _) as [|err|check passes] eqn:Hs; [|done|].
    + intros Hrun Hk. destruct (IH _ Hrun Hk) as [?|(i & c & p & ? & ?)]; [by left|].
      right. exists i, c, p. split; [by right|done].
    + intros Hrun Hk. destruct (IH _ Hrun Hk) as [Hin|(i & c & p & ? & ?)].
      * rewrite lookup_insert in Hin. case_decide as Hd; [|by left].
        right. exists checkID, check, passes. split; [by left|]. naive_solver.
      * right. exists i, c, p. split; [by right|done].
Qed.

(** Every record is stored under its own ID. *)
Lemma run_keyed checkIDs results results' :
  run builtInChecks conf sc checkIDs results = (Some results', None) →
  map_Forall (λ key r, ResultMessage.ID r = key) results →
  map_Forall (λ key r, ResultMessage.ID r = key) results'.
Proof.
  intros Hrun Hall key r Hk.
  destruct (run_lookup _ _ _ _ _ Hrun Hk) as [?|(i & c & p & _ & _ & <- & ->)]; [|done].
  by eapply Hall.
Qed.

End RunFacts.

(** * The claims *)

(** C1 (override property).  When a check ID is present both in the
    configuration's custom checks and in the built-in catalog, the
    catalog lookup of [resolveCheck] yields the custom definition, and
    so does [resolveCheck]: it never fails, the only definition it can
    return is the custom one, it returns it as soon as both admission
    tests accept it, and what the built-in catalog holds under that ID
    has no influence on the result. *)
Theorem C1_custom_shadows_builtin `{Actionable}
    (builtInChecks : gmap string config.SchemaCheck) (conf : config.Configuration)
    (checkID : string) (custom builtIn : config.SchemaCheck) :
  config.CustomChecks conf !! checkID = Some custom →
  builtInChecks !! checkID = Some builtIn →
  lookupCheck builtInChecks conf checkID = Some custom
  ∧ ∀ kind target meta containerName isInit,
      let resolved :=
        resolveCheck builtInChecks conf checkID kind target meta containerName isInit in
      (∀ err, resolved ≠ inl err)
      ∧ (∀ check, resolved = inr (Some check) → check = custom)
      ∧ (Configuration_IsActionable conf (config.ID custom)
           (metaV1.GetNamespace meta) (metaV1.GetName meta) containerName = true →
         SchemaCheck_IsActionable custom target kind isInit = true →
         resolved = inr (Some custom))
      ∧ (∀ other : config.SchemaCheck,
           resolveCheck (<[checkID := other]> builtInChecks) conf checkID kind target
             meta containerName isInit = resolved).
Proof.
  intros Hc Hb. split; [by apply lookupCheck_custom|].
  intros kind target meta containerName isInit resolved. subst resolved.
  unfold resolveCheck. rewrite !(lookupCheck_custom _ _ _ _ Hc).
  repeat split.
  - intros err. destruct (negb _); [done|]. by destruct (negb _).
  - intros check. destruct (negb _); [done|]. destruct (negb _); [done|].
    by intros [= <-].
  - by intros -> ->.
  - intros other. by rewrite (lookupCheck_custom _ _ _ _ Hc).
Qed.

(** ** Exemption keys *)

Lemma String_length_app (s1 s2 : string) :
  String.length (s1 +:+ s2) = String.length s1 + String.length s2.
Proof.
  induction s1 as [|c s1 IH]; [done|].
  change (S (String.length (s1 +:+ s2)) = S (String.length s1 + String.length s2)).
  by rewrite IH.
Qed.

Lemma substring_skip_app (p s : string) (m : nat) :
  substring (String.length p) m (p +:+ s) = substring 0 m s.
Proof.
  induction p as [|c p IH]; [done|].
  change (substring (String.length p) m (p +:+ s) = substring 0 m s). apply IH.
Qed.

Lemma substring_take_app (s t : string) :
  substring 0 (String.length s) (s +:+ t) = s.
Proof.
  induction s as [|c s IH]; [by destruct t|].
  change (String c (substring 0 (String.length s) (s +:+ t)) = String c s).
  by rewrite IH.
Qed.

Lemma isExemptionKey_blanket : isExemptionKey exemptionAnnotationKey = true.
Proof. done. Qed.

Lemma isExemptionKey_pattern checkID :
  isExemptionKey (exemptionAnnotationPattern checkID) = true.
Proof.
  unfold isExemptionKey. apply orb_true_iff. right. apply bool_decide_eq_true.
  assert (substring 22 (String.length (exemptionAnnotationPattern checkID) - 29)
            (exemptionAnnotationPattern checkID) = checkID) as ->; [|done].
  unfold exemptionAnnotationPattern. rewrite !String_length_app.
  replace (String.length "polaris.fairwinds.com/"
           + (String.length checkID + String.length "-exempt") - 29)
    with (String.length checkID) by (cbn; lia).
  change 22 with (String.length "polaris.fairwinds.com/").
  by rewrite substring_skip_app, substring_take_app.
Qed.

(** Only the blanket key and the per-check keys are exemption keys. *)
Lemma isExemptionKey_sound key :
  isExemptionKey key = true →
  key = exemptionAnnotationKey ∨ ∃ checkID, key = exemptionAnnotationPattern checkID.
Proof.
  unfold isExemptionKey. intros [Hk|Hk]%orb_true_iff; apply bool_decide_eq_true in Hk.
  - by left.
  - right. by eexists.
Qed.

Lemma withoutExemptionAnnotations_lookup meta key :
  metaV1.Annotations (withoutExemptionAnnotations meta) !! key
  = if isExemptionKey key then None else metaV1.Annotations meta !! key.
Proof.
  cbn. destruct (isExemptionKey key) eqn:Hk.
  - apply map_lookup_filter_None. right. intros v _. cbn. by rewrite Hk.
  - destruct (metaV1.Annotations meta !! key) as [v|] eqn:Hv.
    + by apply map_lookup_filter_Some.
    + apply map_lookup_filter_None. by left.
Qed.

Lemma hasExemptionAnnotation_exemptionsRemoved controller controller' checkID :
  exemptionsRemoved controller controller' →
  hasExemptionAnnotation controller' checkID = false.
Proof.
  intros (_ & _ & Hm). unfold hasExemptionAnnotation, index, metaV1.GetAnnotations.
  rewrite Hm, !withoutExemptionAnnotations_lookup, isExemptionKey_blanket,
    isExemptionKey_pattern.
  done.
Qed.

(** ** Scopes that agree run alike *)

Section Agreement.
Context `{Actionable}.
Variable builtInChecks : gmap string config.SchemaCheck.
Variable conf : config.Configuration.

Lemma resolveCheck_meta checkID kind target meta1 meta2 containerName isInit :
  metaV1.Namespace meta1 = metaV1.Namespace meta2 →
  metaV1.Name meta1 = metaV1.Name meta2 →
  resolveCheck builtInChecks conf checkID kind target meta1 containerName isInit
  = resolveCheck builtInChecks conf checkID kind target meta2 containerName isInit.
Proof. unfold resolveCheck, metaV1.GetNamespace, metaV1.GetName. by intros -> ->. Qed.

Lemma step_agree checkIDs sc1 sc2 checkID :
  agreeOn builtInChecks conf checkIDs sc1 sc2 → checkID ∈ checkIDs →
  step builtInChecks conf sc1 checkID = step builtInChecks conf sc2 checkID.
Proof.
  intros (Hex & Hk & Ht & Hns & Hn & Hc & Hi & Hev) Hin. unfold step.
  rewrite (Hex _ Hin), Hk, Ht, Hc, Hi.
  rewrite (resolveCheck_meta _ _ _ (sc_meta sc1) (sc_meta sc2)) by done.
  destruct (sc_exempt sc2 checkID); [done|].
  destruct (resolveCheck _ _ _ _ _ _ _ _) as [err|[check|]] eqn:Hr; [done| |done].
  apply resolveCheck_Some in Hr. by rewrite (Hev _ _ Hin Hr).
Qed.

Lemma run_agree checkIDs sc1 sc2 results :
  agreeOn builtInChecks conf checkIDs sc1 sc2 →
  run builtInChecks conf sc1 checkIDs results
  = run builtInChecks conf sc2 checkIDs results.
Proof.
  revert results. induction checkIDs as [|checkID rest IH]; intros results Hag; [done|].
  cbn [run]. rewrite (step_agree _ _ _ _ Hag) by left.
  assert (agreeOn builtInChecks conf rest sc1 sc2) as Hag'.
  { destruct Hag as (Hex & ? & ? & ? & ? & ? & ? & Hev).
    split_and!; try done.
    - intros ??. apply Hex. by right.
    - intros ???. apply Hev. by right. }
  destruct (step _ _ _ _); [by apply IH|done|by apply IH].
Qed.

End Agreement.

(** Concrete catalogs are keyed by ID entry by entry. *)
Ltac solve_keyedByID :=
  unfold keyedByID;
  repeat (apply map_Forall_insert_2; [reflexivity|]);
  apply map_Forall_empty.

(** ** Exemptions *)

Lemma workloadOf_scope `{Actionable} `{Predicates} `{Accessors} conf e controller :
  workloadOf e = Some controller →
  ∃ target containerName isInit evaluate,
    scopeOf conf e
    = inr (workloadScope conf controller target containerName isInit evaluate).
Proof. destruct e; intros [= <-]; cbn [scopeOf]; by repeat eexists. Qed.

(** C2, refuted as stated: an Ingress carrying the blanket exemption
    annotation, under a configuration that allows exemptions, still gets
    a record from the other-object entry point. *)
Lemma C2_other_object_not_exempted :
  let unst := Demo.ingress {[exemptionAnnotationKey := "True"]} in
  metaV1.Annotations (unstructured.Metadata unst) !! exemptionAnnotationKey = Some "True"
  ∧ trueInAnyCase "True"
  ∧ config.DisallowExemptions Demo.conf = false
  ∧ @meta_Accessor Demo.accessors unst = inr (unstructured.Metadata unst)
  ∧ @applySchemaChecks Demo.actionable Demo.predicates Demo.accessors
      Demo.builtIn Demo.conf (OtherChecks unst)
    = (Some {[ "tlsSettingsMissing" :=
                 {| ResultMessage.ID := "tlsSettingsMissing";
                    ResultMessage.Message := "not ok";
                    ResultMessage.Success := false;
                    ResultMessage.Severity := "warning";
                    ResultMessage.Category := "Security" |} ]}, None)
  ∧ @applySchemaChecks Demo.actionable Demo.predicates Demo.accessors
      Demo.builtIn Demo.conf (OtherChecks unst)
    ≠ (Some ∅, None).
Proof.
  split_and!.
  - reflexivity.
  - exists "T"%char, "r"%char, "u"%char, "e"%char. split_and!; auto.
  - reflexivity.
  - reflexivity.
  - vm_compute. reflexivity.
  - intros Heq. apply (f_equal (λ r, r.1 ≫= (.!! "tlsSettingsMissing"))) in Heq.
    vm_compute in Heq. discriminate Heq.
Qed.

(** C2, amended.  For every workload whose annotations set the blanket
    exemption key to "true" in any letter case, and every configuration
    that does not disallow exemptions, the pod, controller and container
    entry points return an empty ResultSet and no error.  The
    other-object entry points exempt no check, whatever the annotations
    of the object are. *)
Theorem C2_blanket_exemption `{Actionable} `{Predicates} `{Accessors}
    (builtInChecks : gmap string config.SchemaCheck) (conf : config.Configuration)
    (e : EntryPoint) :
  (∀ controller val,
     workloadOf e = Some controller →
     metaV1.Annotations (kube.ObjectMeta controller) !! exemptionAnnotationKey
       = Some val →
     trueInAnyCase val →
     config.DisallowExemptions conf = false →
     applySchemaChecks builtInChecks conf e = (Some ∅, None))
  ∧ (∀ sc checkID,
       workloadOf e = None → scopeOf conf e = inr sc → sc_exempt sc checkID = false).
Proof.
  split.
  - intros controller val Hw Hval Htrue Hallow.
    rewrite applySchemaChecks_run.
    destruct (workloadOf_scope conf e controller Hw) as (t & c & i & ev & ->).
    apply run_all_skipped. intros checkID _. apply step_exempt. cbn.
    by rewrite Hallow, (hasExemptionAnnotation_blanket _ _ _ Hval Htrue).
  - intros sc checkID Hw. destruct e; try done; cbn [scopeOf];
      destruct (meta_Accessor unst); by intros [= <-].
Qed.

(** C3, refuted as stated: an Ingress whose annotations exempt
    [tlsSettingsMissing], under a configuration that allows exemptions,
    still gets the record of that check from the other-object entry
    point. *)
Lemma C3_other_object_not_exempted :
  let unst :=
    Demo.ingress {[exemptionAnnotationPattern "tlsSettingsMissing" := "true"]} in
  metaV1.Annotations (unstructured.Metadata unst)
    !! exemptionAnnotationPattern "tlsSettingsMissing" = Some "true"
  ∧ trueInAnyCase "true"
  ∧ config.DisallowExemptions Demo.conf = false
  ∧ keyedByID Demo.builtIn
  ∧ keyedByID (config.CustomChecks Demo.conf)
  ∧ @meta_Accessor Demo.accessors unst = inr (unstructured.Metadata unst)
  ∧ ∃ results,
      @applySchemaChecks Demo.actionable Demo.predicates Demo.accessors
        Demo.builtIn Demo.conf (OtherChecks unst) = (Some results, None)
      ∧ is_Some (results !! "tlsSettingsMissing").
Proof.
  split_and!.
  - apply lookup_singleton_eq.
  - exists "t"%char, "r"%char, "u"%char, "e"%char. split_and!; auto.
  - reflexivity.
  - solve_keyedByID.
  - solve_keyedByID.
  - reflexivity.
  - exists {[ "tlsSettingsMissing" := makeResult Demo.conf
                (Demo.check "tlsSettingsMissing" EmptyString EmptyString "fail") false ]}.
    split; [vm_compute; reflexivity|]. rewrite lookup_singleton_eq. by eexists.
Qed.

(** C3, amended.  For every check X and every workload whose annotations
    set the per-check exemption key of X to "true" in any letter case,
    when exemptions are not disallowed, the pod, controller and
    container entry points skip the turn of X, and, the catalogs being
    keyed by ID, the ResultSet they return has no entry for X.  Entries
    for other checks may still be present: there is such a pass whose
    ResultSet holds a record of another check. *)
Theorem C3_per_check_exemption `{Actionable} `{Predicates} `{Accessors}
    (builtInChecks : gmap string config.SchemaCheck) (conf : config.Configuration)
    (e : EntryPoint) (controller : kube.GenericWorkload) (X val : string) :
  workloadOf e = Some controller →
  metaV1.Annotations (kube.ObjectMeta controller) !! exemptionAnnotationPattern X
    = Some val →
  trueInAnyCase val →
  config.DisallowExemptions conf = false →
  (∀ sc, scopeOf conf e = inr sc → step builtInChecks conf sc X = Skipped)
  ∧ (keyedByID builtInChecks → keyedByID (config.CustomChecks conf) →
     ∀ results : ResultSet,
       (applySchemaChecks builtInChecks conf e).1 = Some results →
       results !! X = None)
  ∧ ∃ (controller' : kube.GenericWorkload) (X' Y : string) (results' : ResultSet),
      metaV1.Annotations (kube.ObjectMeta controller') !! exemptionAnnotationPattern X'
        = Some "true"
      ∧ @applySchemaChecks Demo.actionable Demo.predicates Demo.accessors
          Demo.builtIn Demo.conf (PodChecks controller') = (Some results', None)
      ∧ results' !! X' = None
      ∧ Y ≠ X'
      ∧ is_Some (results' !! Y).
Proof.
  intros Hw Hval Htrue Hallow.
  destruct (workloadOf_scope conf e controller Hw) as (t & c & i & ev & Hsc).
  assert (step builtInChecks conf (workloadScope conf controller t c i ev) X = Skipped)
    as Hskip.
  { apply step_exempt. cbn.
    by rewrite Hallow, (hasExemptionAnnotation_check _ _ _ Hval Htrue). }
  split_and!.
  - intros sc. rewrite Hsc. by intros [= <-].
  - intros HB HC results Hres. rewrite applySchemaChecks_run, Hsc in Hres.
    destruct (run_result builtInChecks conf (workloadScope conf controller t c i ev)
                (getSortedKeys (config.Checks conf)) ∅)
      as [[rs Hrun]|[err Hrun]]; rewrite Hrun in Hres; [|done].
    injection Hres as ->.
    destruct (results !! X) as [r|] eqn:HX; [|done]. exfalso.
    destruct (run_lookup _ _ _ _ _ _ _ _ Hrun HX)
      as [?|(id & ch & p & _ & Hstep & Hid & _)]; [done|].
    pose proof (step_Recorded _ _ _ _ _ _ Hstep) as (Hlook & _ & _).
    rewrite (lookupCheck_keyed _ _ _ _ HB HC Hlook) in Hid. subst id.
    by rewrite Hskip in Hstep.
  - exists (Demo.workload "default" [Demo.app]
              {[exemptionAnnotationPattern "tlsSettingsMissing" := "true"]}),
      "tlsSettingsMissing", "hostIPCSet".
    exists {[ "hostIPCSet" := makeResult Demo.conf
                (Demo.check "hostIPCSet" config.TargetPod config.TargetPod "pass") true ]}.
    split_and!.
    + apply lookup_singleton_eq.
    + vm_compute. reflexivity.
    + by apply lookup_singleton_ne.
    + intros Heq. discriminate Heq.
    + rewrite lookup_singleton_eq. by eexists.
Qed.

(** C4, refuted as stated: with exemptions disallowed, the ResultSet of
    a manifest that carries the blanket exemption annotation is not that
    of the same manifest without the annotation when a check's schema
    looks at the annotations.  The other-object entry points hand the
    whole object to the predicate, and the controller entry point hands
    it the serialised original, which holds the annotations. *)
Lemma C4_predicate_sees_the_annotations :
  let unst := Demo.ingress {[exemptionAnnotationKey := "True"]} in
  let record (checkID : string) (passes : bool) :=
    {| ResultMessage.ID := checkID;
       ResultMessage.Message := if passes then "ok" else "not ok";
       ResultMessage.Success := passes;
       ResultMessage.Severity := "warning";
       ResultMessage.Category := "Security" |} in
  config.DisallowExemptions Demo.confOnAnnotations = true
  ∧ unstructuredWithoutExemptions unst = Demo.ingress ∅
  ∧ @applySchemaChecks Demo.actionable Demo.predicatesOnAnnotations Demo.accessors
      Demo.builtIn Demo.confOnAnnotations (OtherChecks unst)
    = (Some {[ "objectNotExempt" := record "objectNotExempt" false ]}, None)
  ∧ @applySchemaChecks Demo.actionable Demo.predicatesOnAnnotations Demo.accessors
      Demo.builtIn Demo.confOnAnnotations (OtherChecks (unstructuredWithoutExemptions unst))
    = (Some {[ "objectNotExempt" := record "objectNotExempt" true ]}, None)
  ∧ exemptionsRemoved Demo.exemptAllSerialised Demo.plainSerialised
  ∧ @applySchemaChecks Demo.actionable Demo.predicatesOnAnnotations Demo.accessors
      Demo.builtIn Demo.confOnAnnotations (ControllerChecks Demo.exemptAllSerialised)
    = (Some {[ "controllerNotExempt" := record "controllerNotExempt" false ]}, None)
  ∧ @applySchemaChecks Demo.actionable Demo.predicatesOnAnnotations Demo.accessors
      Demo.builtIn Demo.confOnAnnotations (ControllerChecks Demo.plainSerialised)
    = (Some {[ "controllerNotExempt" := record "controllerNotExempt" true ]}, None).
Proof.
  split_and!.
  - reflexivity.
  - vm_compute. reflexivity.
  - vm_compute. reflexivity.
  - vm_compute. reflexivity.
  - split_and!; [reflexivity|reflexivity|vm_compute; reflexivity].
  - vm_compute. reflexivity.
  - vm_compute. reflexivity.
Qed.

(** C4, amended.  Under a configuration with the disallow-exemptions
    flag set, the engine itself ignores the exemption annotations.  For
    a workload and the workload of the same manifest with all exemption
    annotations removed, in which no check is exempt: the pod pass and
    every container pass return the same result; the controller pass
    returns the same result provided the predicate of every configured
    check answers alike on the two serialised originals.  For an object
    and the same object with all exemption annotations removed, the two
    other-object entry points return the same result provided the
    accessor yields the same namespace and name and the predicate of
    every configured check answers alike on the two objects.  Removing
    the exemption annotations touches no other annotation. *)
Theorem C4_disallow_exemptions `{Actionable} `{Predicates} `{Accessors}
    (builtInChecks : gmap string config.SchemaCheck) (conf : config.Configuration) :
  config.DisallowExemptions conf = true →
  (∀ controller controller',
     exemptionsRemoved controller controller' →
     (∀ checkID, hasExemptionAnnotation controller' checkID = false)
     ∧ applyPodSchemaChecks builtInChecks conf controller
       = applyPodSchemaChecks builtInChecks conf controller'
     ∧ (∀ container isInit,
          applyContainerSchemaChecks builtInChecks conf controller container isInit
          = applyContainerSchemaChecks builtInChecks conf controller' container isInit)
     ∧ ((∀ checkID check,
           is_Some (config.Checks conf !! checkID) →
           lookupCheck builtInChecks conf checkID = Some check →
           CheckController check (kube.OriginalObjectJSON controller)
           = CheckController check (kube.OriginalObjectJSON controller')) →
        applyControllerSchemaChecks builtInChecks conf controller
        = applyControllerSchemaChecks builtInChecks conf controller'))
  ∧ (∀ unst objMeta objMeta',
       meta_Accessor unst = inr objMeta →
       meta_Accessor (unstructuredWithoutExemptions unst) = inr objMeta' →
       metaV1.Namespace objMeta' = metaV1.Namespace objMeta →
       metaV1.Name objMeta' = metaV1.Name objMeta →
       (∀ checkID check,
          is_Some (config.Checks conf !! checkID) →
          lookupCheck builtInChecks conf checkID = Some check →
          CheckObject check unst
          = CheckObject check (unstructuredWithoutExemptions unst)) →
       applyOtherSchemaChecks builtInChecks conf unst
       = applyOtherSchemaChecks builtInChecks conf (unstructuredWithoutExemptions unst)
       ∧ applyArbitrarySchemaChecks builtInChecks conf unst
         = applyArbitrarySchemaChecks builtInChecks conf
             (unstructuredWithoutExemptions unst))
  ∧ (∀ meta key,
       isExemptionKey key = false →
       metaV1.Annotations (withoutExemptionAnnotations meta) !! key
       = metaV1.Annotations meta !! key).
Proof.
  intros Hdis. split_and!.
  - intros w w' Hrem. pose proof Hrem as (Hk & Hp & Hm).
    assert (∀ checkID,
              negb (config.DisallowExemptions conf) && hasExemptionAnnotation w checkID
              = negb (config.DisallowExemptions conf) && hasExemptionAnnotation w' checkID)
      as Hex by (intros; by rewrite Hdis).
    split_and!.
    + intros checkID. by eapply hasExemptionAnnotation_exemptionsRemoved.
    + unfold applyPodSchemaChecks. rewrite !applyPodSchemaChecks_loop_run.
      apply run_agree. split_and!; cbn; try done; [by rewrite Hm..|].
      intros. by rewrite Hp.
    + intros container isInit.
      unfold applyContainerSchemaChecks. rewrite !applyContainerSchemaChecks_loop_run.
      apply run_agree. split_and!; cbn; try done; [by rewrite Hm..|].
      intros. unfold evaluateContainer, podCopy. by rewrite Hp.
    + intros Hsame.
      unfold applyControllerSchemaChecks. rewrite !applyControllerSchemaChecks_loop_run.
      apply run_agree. split_and!; cbn; try done; [by rewrite Hm..|].
      intros checkID check Hin%getSortedKeys_elem_of Hlook. by apply (Hsame checkID).
  - intros unst objMeta objMeta' Hacc Hacc' Hns Hn Hsame.
    unfold applyOtherSchemaChecks, applyArbitrarySchemaChecks.
    rewrite Hacc, Hacc', !applyObjectSchemaChecks_loop_run.
    split; apply run_agree; (split_and!; cbn; try done);
      intros checkID check Hin%getSortedKeys_elem_of Hlook; by apply (Hsame checkID).
  - intros meta key Hk. by rewrite withoutExemptionAnnotations_lookup, Hk.
Qed.

(** ** Errors *)

Section ErrorFacts.
Context `{Actionable} `{Predicates} `{Accessors}.
Variable builtInChecks : gmap string config.SchemaCheck.
Variable conf : config.Configuration.

Lemma step_not_found sc checkID :
  sc_exempt sc checkID = false →
  lookupCheck builtInChecks conf checkID = None →
  step builtInChecks conf sc checkID = Aborted ("Check " +:+ checkID +:+ " not found").
Proof. unfold step, resolveCheck. by intros -> ->. Qed.

(** Once a turn aborts, the loop returns its error and no set, whatever
    comes after. *)
Lemma run_abort sc pre checkID post results0 results err :
  run builtInChecks conf sc pre results0 = (Some results, None) →
  step builtInChecks conf sc checkID = Aborted err →
  run builtInChecks conf sc (pre ++ checkID :: post) results0 = (None, Some err).
Proof. intros Hpre Hstep. rewrite run_app, Hpre. cbn [run]. by rewrite Hstep. Qed.

(** A turn that aborts anywhere makes the whole loop fail. *)
Lemma run_abort_somewhere sc checkIDs checkID results0 err :
  checkID ∈ checkIDs →
  step builtInChecks conf sc checkID = Aborted err →
  ∃ err', run builtInChecks conf sc checkIDs results0 = (None, Some err').
Proof.
  intros (pre & post & ->)%list_elem_of_split Hstep.
  destruct (run_result builtInChecks conf sc pre results0) as [[rs Hpre]|[err' Hpre]].
  - exists err. by eapply run_abort.
  - exists err'. by rewrite run_app, Hpre.
Qed.

(** With an error, an entry point returns no set, or the empty set when
    the error is the accessor's. *)
Lemma applySchemaChecks_error e res err :
  applySchemaChecks builtInChecks conf e = (res, Some err) →
  res = None ∨ (res = Some ∅ ∧ scopeOf conf e = inl err).
Proof.
  rewrite applySchemaChecks_run. destruct (scopeOf conf e) as [err'|sc].
  - intros [= <- <-]. by right.
  - destruct (run_result builtInChecks conf sc (getSortedKeys (config.Checks conf)) ∅)
      as [[rs ->]|[err' ->]]; [done|]. intros [= <- _]. by left.
Qed.

End ErrorFacts.

(** C5, refuted as stated: [myOrgCheck] is in no catalog and is not
    exempted, yet the pod entry point returns the error of the custom
    check sorted before it, which is not a check-not-found error. *)
Lemma C5_earlier_error_wins :
  let controller := Demo.workload "default" [Demo.app] ∅ in
  is_Some (config.Checks Demo.confMalformed !! "myOrgCheck")
  ∧ config.CustomChecks Demo.confMalformed !! "myOrgCheck" = None
  ∧ Demo.builtIn !! "myOrgCheck" = None
  ∧ hasExemptionAnnotation controller "myOrgCheck" = false
  ∧ @applySchemaChecks Demo.actionable Demo.predicates Demo.accessors
      Demo.builtIn Demo.confMalformed (PodChecks controller)
    = (None, Some "malformed schema")
  ∧ ∀ checkID, "malformed schema" ≠ "Check " +:+ checkID +:+ " not found".
Proof.
  split_and!.
  - vm_compute. by eexists.
  - vm_compute. reflexivity.
  - vm_compute. reflexivity.
  - vm_compute. reflexivity.
  - vm_compute. reflexivity.
  - intros checkID Heq. discriminate Heq.
Qed.

(** C5, amended.  When the configuration references a check ID that is
    absent from both the custom checks and the built-in catalog and that
    the manifest does not exempt, every entry point (whose accessor
    succeeds) aborts the pass: it returns an error and no ResultSet.
    The error is the check-not-found error of that ID whenever the check
    IDs sorted before it complete without error. *)
Theorem C5_check_not_found `{Actionable} `{Predicates} `{Accessors}
    (builtInChecks : gmap string config.SchemaCheck) (conf : config.Configuration)
    (e : EntryPoint) (sc : Scope) (checkID : string) :
  is_Some (config.Checks conf !! checkID) →
  config.CustomChecks conf !! checkID = None →
  builtInChecks !! checkID = None →
  scopeOf conf e = inr sc →
  sc_exempt sc checkID = false →
  (∃ err, applySchemaChecks builtInChecks conf e = (None, Some err))
  ∧ (∀ (pre post : list string) (results : ResultSet),
       getSortedKeys (config.Checks conf) = (pre ++ checkID :: post)%list →
       run builtInChecks conf sc pre ∅ = (Some results, None) →
       applySchemaChecks builtInChecks conf e
       = (None, Some ("Check " +:+ checkID +:+ " not found"))).
Proof.
  intros Hin Hc Hb Hsc Hex.
  pose proof (step_not_found builtInChecks conf sc checkID Hex
                (lookupCheck_None _ _ _ Hc Hb)) as Hstep.
  rewrite applySchemaChecks_run, Hsc. split.
  - eapply run_abort_somewhere; [|done]. by apply getSortedKeys_elem_of.
  - intros pre post results -> Hpre. by eapply run_abort.
Qed.

(** C6.  At every entry point, when resolution of a check ID fails with
    check-not-found or the predicate of a resolved check fails, the loop
    stops there: the entry point returns that error and no ResultSet,
    whatever records the earlier checks produced and whatever check IDs
    follow.  No entry point ever returns an error together with a
    ResultSet that holds a record. *)
Theorem C6_errors_abort_the_pass `{Actionable} `{Predicates} `{Accessors}
    (builtInChecks : gmap string config.SchemaCheck) (conf : config.Configuration)
    (e : EntryPoint) :
  (∀ (sc : Scope) (pre : list string) (checkID : string) (post : list string)
      (results : ResultSet) (err : error),
     scopeOf conf e = inr sc →
     getSortedKeys (config.Checks conf) = (pre ++ checkID :: post)%list →
     run builtInChecks conf sc pre ∅ = (Some results, None) →
     sc_exempt sc checkID = false →
     (resolveCheck builtInChecks conf checkID (sc_kind sc) (sc_target sc) (sc_meta sc)
        (sc_containerName sc) (sc_isInit sc) = inl err
      ∨ ∃ check,
          resolveCheck builtInChecks conf checkID (sc_kind sc) (sc_target sc)
            (sc_meta sc) (sc_containerName sc) (sc_isInit sc) = inr (Some check)
          ∧ sc_evaluate sc check = inl err) →
     applySchemaChecks builtInChecks conf e = (None, Some err))
  ∧ (∀ res err,
       applySchemaChecks builtInChecks conf e = (res, Some err) →
       res = None ∨ res = Some ∅)
  ∧ (∀ res err sc,
       applySchemaChecks builtInChecks conf e = (res, Some err) →
       scopeOf conf e = inr sc → res = None).
Proof.
  split_and!.
  - intros sc pre checkID post results err Hsc Hkeys Hpre Hex Hfail.
    rewrite applySchemaChecks_run, Hsc, Hkeys. eapply run_abort; [done|].
    unfold step. rewrite Hex. destruct Hfail as [->|(check & -> & ->)]; done.
  - intros res err Hres.
    destruct (applySchemaChecks_error _ _ _ _ _ Hres) as [?|[? _]]; auto.
  - intros res err sc Hres Hsc.
    destruct (applySchemaChecks_error _ _ _ _ _ Hres) as [?|[_ Hsc']]; [done|].
    by rewrite Hsc in Hsc'.
Qed.

(** ** Skips and the keys of the ResultSet *)

Section KeyFacts.
Context `{Actionable}.
Variable builtInChecks : gmap string config.SchemaCheck.
Variable conf : config.Configuration.
Hypothesis builtIn_keyed : keyedByID builtInChecks.
Hypothesis custom_keyed : keyedByID (config.CustomChecks conf).

(** With catalogs keyed by ID, a record can only come from the turn of
    its own check ID. *)
Lemma run_lookup_keyed sc checkIDs results key r :
  run builtInChecks conf sc checkIDs ∅ = (Some results, None) →
  results !! key = Some r →
  key ∈ checkIDs
  ∧ ∃ check passes,
      step builtInChecks conf sc key = Recorded check passes
      ∧ config.ID check = key.
Proof.
  intros Hrun Hk.
  destruct (run_lookup _ _ _ _ _ _ _ _ Hrun Hk)
    as [?|(id & check & passes & Hin & Hstep & Hid & _)]; [done|].
  pose proof (step_Recorded _ _ _ _ _ _ Hstep) as (Hlook & _ & _).
  pose proof (lookupCheck_keyed _ _ _ _ builtIn_keyed custom_keyed Hlook) as Hid'.
  rewrite Hid' in Hid. subst id. eauto.
Qed.

Lemma run_skipped_no_record sc checkIDs results key :
  run builtInChecks conf sc checkIDs ∅ = (Some results, None) →
  step builtInChecks conf sc key = Skipped →
  results !! key = None.
Proof.
  intros Hrun Hstep. destruct (results !! key) as [r|] eqn:Hk; [|done].
  destruct (run_lookup_keyed _ _ _ _ _ Hrun Hk) as (_ & c & p & Hstep' & _).
  by rewrite Hstep in Hstep'.
Qed.

End KeyFacts.

(** C9.  A check that resolves in the catalog but fails the global or
    the structural actionability test is skipped without error:
    [resolveCheck] returns neither a definition nor an error, the loop
    goes on to the next check ID as if this one were not there, and,
    the catalogs being keyed by ID, a ResultSet returned by the pass
    has no entry for that check. *)
Theorem C9_not_actionable_is_skipped `{Actionable} `{Predicates} `{Accessors}
    (builtInChecks : gmap string config.SchemaCheck) (conf : config.Configuration)
    (e : EntryPoint) (sc : Scope) (checkID : string) (check : config.SchemaCheck) :
  scopeOf conf e = inr sc →
  lookupCheck builtInChecks conf checkID = Some check →
  Configuration_IsActionable conf (config.ID check)
    (metaV1.GetNamespace (sc_meta sc)) (metaV1.GetName (sc_meta sc))
    (sc_containerName sc) = false
  ∨ SchemaCheck_IsActionable check (sc_target sc) (sc_kind sc) (sc_isInit sc) = false →
  resolveCheck builtInChecks conf checkID (sc_kind sc) (sc_target sc) (sc_meta sc)
    (sc_containerName sc) (sc_isInit sc) = inr None
  ∧ step builtInChecks conf sc checkID = Skipped
  ∧ (∀ (pre post : list string) (results : ResultSet),
       run builtInChecks conf sc (pre ++ checkID :: post)%list results
       = run builtInChecks conf sc (pre ++ post)%list results)
  ∧ (keyedByID builtInChecks → keyedByID (config.CustomChecks conf) →
     ∀ results,
       (applySchemaChecks builtInChecks conf e).1 = Some results →
       results !! checkID = None ∧ results !! config.ID check = None).
Proof.
  intros Hsc Hlook Hfail.
  assert (resolveCheck builtInChecks conf checkID (sc_kind sc) (sc_target sc)
            (sc_meta sc) (sc_containerName sc) (sc_isInit sc) = inr None) as Hres.
  { unfold resolveCheck. rewrite Hlook. destruct Hfail as [->| ->]; [done|].
    by destruct (negb _). }
  assert (step builtInChecks conf sc checkID = Skipped) as Hstep.
  { unfold step. rewrite Hres. by destruct (sc_exempt sc checkID). }
  split_and!; [done|done| |].
  - intros pre post results. rewrite !run_app.
    destruct (run builtInChecks conf sc pre results) as [[rs|] [err|]]; try done.
    by apply run_skip.
  - intros HB HC results. rewrite applySchemaChecks_run, Hsc.
    destruct (run_result builtInChecks conf sc (getSortedKeys (config.Checks conf)) ∅)
      as [[rs Hrun]|[err Hrun]]; rewrite Hrun; [|done].
    intros [= ->]. rewrite (lookupCheck_keyed _ _ _ _ HB HC Hlook).
    split; apply (run_skipped_no_record _ _ HB HC sc _ _ _ Hrun Hstep).
Qed.

(** C10.  Only the keys of the configuration's severity mapping are
    considered: with catalogs keyed by ID, every key of a returned
    ResultSet is a key of that mapping, so a check ID outside it has no
    record; and the pass is the same whatever the predicates would
    answer for definitions whose ID is not a key of the mapping, which
    are thus never evaluated. *)
Theorem C10_only_configured_checks `{Actionable} `{Accessors}
    (builtInChecks : gmap string config.SchemaCheck) (conf : config.Configuration)
    (e : EntryPoint) :
  keyedByID builtInChecks →
  keyedByID (config.CustomChecks conf) →
  (∀ (P : Predicates) results checkID,
     (applySchemaChecks (H0 := P) builtInChecks conf e).1 = Some results →
     (is_Some (results !! checkID) → is_Some (config.Checks conf !! checkID))
     ∧ (config.Checks conf !! checkID = None → results !! checkID = None))
  ∧ (∀ P P' : Predicates,
       (∀ check, is_Some (config.Checks conf !! config.ID check) →
          (∀ pod, @CheckPod P check pod = @CheckPod P' check pod)
          ∧ (∀ json, @CheckController P check json = @CheckController P' check json)
          ∧ (∀ c, @CheckContainer P check c = @CheckContainer P' check c)
          ∧ (∀ unst, @CheckObject P check unst = @CheckObject P' check unst)) →
       applySchemaChecks (H0 := P) builtInChecks conf e
       = applySchemaChecks (H0 := P') builtInChecks conf e).
Proof.
  intros HB HC. split.
  - intros P results checkID. rewrite applySchemaChecks_run.
    destruct (scopeOf conf e) as [err|sc].
    { intros [= <-]. rewrite lookup_empty. split; [by intros [? ?]|done]. }
    destruct (run_result builtInChecks conf sc (getSortedKeys (config.Checks conf)) ∅)
      as [[rs Hrun]|[err Hrun]]; rewrite Hrun; [|done].
    intros [= ->].
    assert (is_Some (results !! checkID) → is_Some (config.Checks conf !! checkID)) as Hsub.
    { intros [r Hr].
      destruct (run_lookup_keyed _ _ HB HC _ _ _ _ _ Hrun Hr) as [Hin _].
      by apply getSortedKeys_elem_of. }
    split; [done|]. intros Hnone.
    destruct (results !! checkID) eqn:Hr; [|done].
    destruct Hsub as [? Hs]; [by eexists|]. by rewrite Hnone in Hs.
  - intros P P' Hagree. rewrite !applySchemaChecks_run.
    assert (∀ checkID check,
              checkID ∈ getSortedKeys (config.Checks conf) →
              lookupCheck builtInChecks conf checkID = Some check →
              is_Some (config.Checks conf !! config.ID check)) as Hdom.
    { intros checkID check Hin Hlook.
      rewrite (lookupCheck_keyed _ _ _ _ HB HC Hlook). by apply getSortedKeys_elem_of. }
    destruct e as [w|w|w c i|u|u]; cbn [scopeOf].
    + apply run_agree. split_and!; try done.
      intros id ch Hin Hl. cbn. by apply Hagree, (Hdom id).
    + apply run_agree. split_and!; try done.
      intros id ch Hin Hl. cbn. by apply Hagree, (Hdom id).
    + apply run_agree. split_and!; try done.
      intros id ch Hin Hl. cbn. unfold evaluateContainer.
      destruct (Hagree ch (Hdom id ch Hin Hl)) as (Hp & _ & Hc & _).
      by rewrite Hp, Hc.
    + destruct (meta_Accessor u); [done|]. apply run_agree. split_and!; try done.
      intros id ch Hin Hl. cbn. by apply Hagree, (Hdom id).
    + destruct (meta_Accessor u); [done|]. apply run_agree. split_and!; try done.
      intros id ch Hin Hl. cbn. by apply Hagree, (Hdom id).
Qed.

(** ** Container scope *)

Lemma hasExemptionAnnotation_meta w1 w2 checkID :
  kube.ObjectMeta w1 = kube.ObjectMeta w2 →
  hasExemptionAnnotation w1 checkID = hasExemptionAnnotation w2 checkID.
Proof. unfold hasExemptionAnnotation. by intros ->. Qed.

Lemma podCopy_sameButContainers w1 w2 container :
  sameButContainers w1 w2 → podCopy w1 container = podCopy w2 container.
Proof. intros (_ & _ & Hf). unfold podCopy. by rewrite Hf. Qed.

(** ** Reading a ResultSet *)

Lemma omap_lookup_keys (results : ResultSet) (keys : list string) :
  (∀ key, key ∈ keys → ∃ r, results !! key = Some r ∧ ResultMessage.ID r = key) →
  ResultMessage.ID <$> omap (λ checkID, results !! checkID) keys = keys.
Proof.
  induction keys as [|key keys IH]; intros Hall; [done|].
  destruct (Hall key) as (r & Hr & Hid); [by left|].
  cbn. rewrite Hr. cbn. rewrite Hid. f_equal. apply IH.
  intros ??. apply Hall. by right.
Qed.

Lemma omap_lookup_pairs (results : ResultSet) (l : list (string * ResultMessage.t)) :
  (∀ key r, (key, r) ∈ l → results !! key = Some r) →
  omap (λ checkID, results !! checkID) l.*1 = l.*2.
Proof.
  induction l as [|[key r] l IH]; intros Hall; [done|].
  cbn. rewrite (Hall key r) by left. f_equal. apply IH.
  intros ???. apply Hall. by right.
Qed.

(** Reading a set yields each of its records once. *)
Lemma ResultSet_iterate_Permutation (results : ResultSet) :
  ResultSet_iterate results ≡ₚ (map_to_list results).*2.
Proof.
  unfold ResultSet_iterate. rewrite sort_Strings_Permutation.
  rewrite omap_lookup_pairs; [done|].
  intros key r. apply elem_of_map_to_list.
Qed.

(** When every record is stored under its ID, the IDs are read in
    strictly ascending order. *)
Lemma ResultSet_iterate_sorted (results : ResultSet) :
  map_Forall (λ key r, ResultMessage.ID r = key) results →
  StronglySorted String_lt (ResultMessage.ID <$> ResultSet_iterate results).
Proof.
  intros Hkeyed. unfold ResultSet_iterate. rewrite omap_lookup_keys.
  - apply Sorted_le_NoDup_lt; [apply sort_Strings_Sorted|].
    apply sort_Strings_NoDup, NoDup_fst_map_to_list.
  - intros key. rewrite sort_Strings_Permutation, list_elem_of_fmap.
    intros [[k r] [-> Hkr%elem_of_map_to_list]]. exists r. split; [done|].
    by apply Hkeyed in Hkr.
Qed.

Lemma applySchemaChecks_keyed `{Actionable} `{Predicates} `{Accessors}
    builtInChecks conf e (results : ResultSet) :
  (applySchemaChecks builtInChecks conf e).1 = Some results →
  map_Forall (λ key r, ResultMessage.ID r = key) results.
Proof.
  rewrite applySchemaChecks_run. destruct (scopeOf conf e) as [err|sc].
  - intros [= <-]. apply map_Forall_empty.
  - destruct (run_result builtInChecks conf sc (getSortedKeys (config.Checks conf)) ∅)
      as [[rs Hrun]|[err Hrun]]; rewrite Hrun; [|done].
    intros [= ->]. eapply run_keyed; [done|]. apply map_Forall_empty.
Qed.

(** ** Loading order *)

Lemma init_loop_Permutation `{SchemaBox} (order1 order2 : list string) :
  order1 ≡ₚ order2 →
  ∀ builtInChecks, init_loop order1 builtInChecks = init_loop order2 builtInChecks.
Proof.
  induction 1 as [|x l1 l2 _ IH|x y l|l1 l2 l3 _ IH1 _ IH2]; intros m.
  - done.
  - cbn [init_loop]. destruct (schemaBox_Find _); [done|].
    destruct (parseCheck _) as [check [err|]]; [done|]. apply IH.
  - cbn [init_loop].
    destruct (schemaBox_Find (y +:+ ".yaml")) as [|cy] eqn:Hy;
      destruct (schemaBox_Find (x +:+ ".yaml")) as [|cx] eqn:Hx; try done.
    + by destruct (parseCheck cx) as [? [?|]].
    + by destruct (parseCheck cy) as [? [?|]].
    + destruct (parseCheck cy) as [chy [?|]] eqn:Hpy;
        destruct (parseCheck cx) as [chx [?|]] eqn:Hpx; try done.
      destruct (decide (x = y)) as [->|Hne].
      * rewrite Hx in Hy. injection Hy as ->. rewrite Hpx in Hpy.
        by injection Hpy as ->.
      * by rewrite insert_insert_ne.
  - by rewrite IH1.
Qed.

(** C7.  Reading the ResultSet a pass returns yields its records, each
    once, in strictly ascending bytewise order of check ID.  The order
    read depends on the records alone: sets built from the same records
    inserted in different orders read alike, the sorted check IDs a pass
    walks are the same whatever order the keys of the mapping are
    enumerated in, and loading the built-in catalog in another
    declaration order gives the same catalog. *)
Theorem C7_results_read_in_ID_order `{Actionable} `{Predicates} `{Accessors}
    (builtInChecks : gmap string config.SchemaCheck) (conf : config.Configuration)
    (e : EntryPoint) (results : ResultSet) :
  (applySchemaChecks builtInChecks conf e).1 = Some results →
  StronglySorted String_lt (ResultMessage.ID <$> ResultSet_iterate results)
  ∧ ResultSet_iterate results ≡ₚ (map_to_list results).*2
  ∧ (∀ records1 records2 : list (string * ResultMessage.t),
       NoDup records1.*1 → records1 ≡ₚ records2 →
       ResultSet_iterate (list_to_map records1)
       = ResultSet_iterate (list_to_map records2))
  ∧ (∀ keys : list string,
       keys ≡ₚ (map_to_list (config.Checks conf)).*1 →
       sort_Strings keys = getSortedKeys (config.Checks conf))
  ∧ (∀ (box : SchemaBox) (order : list string),
       order ≡ₚ checkOrder → @init_with box order = @init box).
Proof.
  intros Hres. split_and!.
  - by eapply ResultSet_iterate_sorted, applySchemaChecks_keyed.
  - apply ResultSet_iterate_Permutation.
  - intros records1 records2 Hnd Hp. by rewrite (list_to_map_proper records1 records2).
  - apply getSortedKeys_any_order.
  - intros box order Hp. by apply init_loop_Permutation.
Qed.

(** * The claims on examples *)

(** A workload whose only container has no memory limit, default
    severities, no annotations: the container pass records
    [memoryLimitsMissing] as failed. *)
Example memoryLimitsMissing_fails :
  @applySchemaChecks Demo.actionable Demo.predicates Demo.accessors
    Demo.builtIn Demo.conf (ContainerChecks Demo.plain Demo.app false)
  = (Some {[ "memoryLimitsMissing" :=
               {| ResultMessage.ID := "memoryLimitsMissing";
                  ResultMessage.Message := "not ok";
                  ResultMessage.Success := false;
                  ResultMessage.Severity := "danger";
                  ResultMessage.Category := "Security" |} ]}, None).
Proof. vm_compute. reflexivity. Qed.

Lemma trueInAnyCase_True : trueInAnyCase "True".
Proof. exists "T"%char, "r"%char, "u"%char, "e"%char. split_and!; auto. Qed.

Lemma Demo_builtIn_keyed : keyedByID Demo.builtIn.
Proof. solve_keyedByID. Qed.

Lemma Demo_conf_keyed : keyedByID (config.CustomChecks Demo.conf).
Proof. solve_keyedByID. Qed.

(** C1 on an example: a custom [hostIPCSet] shadows the built-in one. *)
Lemma C1_witness :
  config.CustomChecks Demo.confOverride !! "hostIPCSet" = Some Demo.customHostIPC
  ∧ Demo.builtIn !! "hostIPCSet"
    = Some (Demo.check "hostIPCSet" config.TargetPod config.TargetPod "pass")
  ∧ lookupCheck Demo.builtIn Demo.confOverride "hostIPCSet" = Some Demo.customHostIPC
  ∧ @resolveCheck Demo.actionable Demo.builtIn Demo.confOverride "hostIPCSet"
      "Deployment" config.TargetPod (Demo.objectMeta "default" ∅) EmptyString false
    = inr (Some Demo.customHostIPC).
Proof.
  assert (config.CustomChecks Demo.confOverride !! "hostIPCSet"
          = Some Demo.customHostIPC) as Hc by (vm_compute; reflexivity).
  assert (Demo.builtIn !! "hostIPCSet"
          = Some (Demo.check "hostIPCSet" config.TargetPod config.TargetPod "pass"))
    as Hb by (vm_compute; reflexivity).
  destruct (@C1_custom_shadows_builtin Demo.actionable _ _ _ _ _ Hc Hb) as [Hl Hr].
  split_and!; [exact Hc|exact Hb|exact Hl|].
  apply Hr; reflexivity.
Defined.

(** C2 on an example: a workload exempt from all checks, at the container
    entry point. *)
Lemma C2_witness :
  workloadOf (ContainerChecks Demo.exemptAll Demo.app false) = Some Demo.exemptAll
  ∧ metaV1.Annotations (kube.ObjectMeta Demo.exemptAll) !! exemptionAnnotationKey
    = Some "True"
  ∧ trueInAnyCase "True"
  ∧ config.DisallowExemptions Demo.conf = false
  ∧ @applySchemaChecks Demo.actionable Demo.predicates Demo.accessors
      Demo.builtIn Demo.conf (ContainerChecks Demo.exemptAll Demo.app false)
    = (Some ∅, None).
Proof.
  assert (metaV1.Annotations (kube.ObjectMeta Demo.exemptAll) !! exemptionAnnotationKey
          = Some "True") as Hval by apply lookup_singleton_eq.
  split_and!; [reflexivity|exact Hval|exact trueInAnyCase_True|reflexivity|].
  exact (proj1 (@C2_blanket_exemption Demo.actionable Demo.predicates Demo.accessors
                  Demo.builtIn Demo.conf
                  (ContainerChecks Demo.exemptAll Demo.app false))
           Demo.exemptAll "True" eq_refl Hval trueInAnyCase_True eq_refl).
Defined.

(** C3 on an example: a workload exempting [memoryLimitsMissing], at the
    container entry point. *)
Lemma C3_witness :
  keyedByID Demo.builtIn
  ∧ keyedByID (config.CustomChecks Demo.conf)
  ∧ workloadOf (ContainerChecks Demo.exemptMemory Demo.app false) = Some Demo.exemptMemory
  ∧ metaV1.Annotations (kube.ObjectMeta Demo.exemptMemory)
      !! exemptionAnnotationPattern "memoryLimitsMissing" = Some "True"
  ∧ trueInAnyCase "True"
  ∧ config.DisallowExemptions Demo.conf = false
  ∧ (@applySchemaChecks Demo.actionable Demo.predicates Demo.accessors
       Demo.builtIn Demo.conf (ContainerChecks Demo.exemptMemory Demo.app false)).1
    = Some ∅
  ∧ (∅ : ResultSet) !! "memoryLimitsMissing" = None.
Proof.
  assert (metaV1.Annotations (kube.ObjectMeta Demo.exemptMemory)
            !! exemptionAnnotationPattern "memoryLimitsMissing" = Some "True")
    as Hval by apply lookup_singleton_eq.
  assert ((@applySchemaChecks Demo.actionable Demo.predicates Demo.accessors
             Demo.builtIn Demo.conf
             (ContainerChecks Demo.exemptMemory Demo.app false)).1 = Some ∅)
    as Hres by (vm_compute; reflexivity).
  split_and!; [exact Demo_builtIn_keyed|exact Demo_conf_keyed|reflexivity|exact Hval
              |exact trueInAnyCase_True|reflexivity|exact Hres|].
  exact (proj1 (proj2
           (@C3_per_check_exemption Demo.actionable Demo.predicates Demo.accessors
              Demo.builtIn Demo.conf
              (ContainerChecks Demo.exemptMemory Demo.app false)
              Demo.exemptMemory "memoryLimitsMissing" "True"
              eq_refl Hval trueInAnyCase_True eq_refl))
           Demo_builtIn_keyed Demo_conf_keyed ∅ Hres).
Defined.

(** C4 on an example: a workload that exempts all checks, under a
    configuration that disallows exemptions, gets the ResultSet of the
    workload without the annotation; where exemptions are allowed its
    ResultSet is empty. *)
Lemma C4_witness :
  config.DisallowExemptions Demo.confStrict = true
  ∧ exemptionsRemoved Demo.exemptAll Demo.plain
  ∧ @applyPodSchemaChecks Demo.actionable Demo.predicates
      Demo.builtIn Demo.confStrict Demo.exemptAll
    = @applyPodSchemaChecks Demo.actionable Demo.predicates
        Demo.builtIn Demo.confStrict Demo.plain
  ∧ @applyPodSchemaChecks Demo.actionable Demo.predicates
      Demo.builtIn Demo.confStrict Demo.exemptAll
    = (Some {[ "hostIPCSet" :=
                 {| ResultMessage.ID := "hostIPCSet";
                    ResultMessage.Message := "ok";
                    ResultMessage.Success := true;
                    ResultMessage.Severity := "warning";
                    ResultMessage.Category := "Security" |} ]}, None)
  ∧ @applyPodSchemaChecks Demo.actionable Demo.predicates
      Demo.builtIn Demo.conf Demo.exemptAll
    = (Some ∅, None).
Proof.
  assert (exemptionsRemoved Demo.exemptAll Demo.plain) as Hrem.
  { split_and!; [reflexivity|reflexivity|vm_compute; reflexivity]. }
  split_and!; [reflexivity|exact Hrem| |vm_compute; reflexivity|vm_compute; reflexivity].
  destruct (@C4_disallow_exemptions Demo.actionable Demo.predicates Demo.accessors
              Demo.builtIn Demo.confStrict eq_refl) as (Hw & _ & _).
  exact (proj1 (proj2 (Hw Demo.exemptAll Demo.plain Hrem))).
Defined.

(** C5 on an example: [myOrgCheck] is in no catalog and the two check IDs
    sorted before it complete. *)
Lemma C5_witness :
  let sc :=
    workloadScope Demo.confMissing Demo.plain config.TargetPod EmptyString false
      (λ check, @CheckPod Demo.predicates check (kube.PodSpec Demo.plain)) in
  is_Some (config.Checks Demo.confMissing !! "myOrgCheck")
  ∧ config.CustomChecks Demo.confMissing !! "myOrgCheck" = None
  ∧ Demo.builtIn !! "myOrgCheck" = None
  ∧ @scopeOf Demo.predicates Demo.accessors Demo.confMissing (PodChecks Demo.plain)
    = inr sc
  ∧ sc_exempt sc "myOrgCheck" = false
  ∧ getSortedKeys (config.Checks Demo.confMissing)
    = (["hostIPCSet"; "memoryLimitsMissing"] ++ "myOrgCheck" :: ["tlsSettingsMissing"])%list
  ∧ @run Demo.actionable Demo.builtIn Demo.confMissing sc
      ["hostIPCSet"; "memoryLimitsMissing"] ∅
    = (Some {[ "hostIPCSet" := makeResult Demo.confMissing
                 (Demo.check "hostIPCSet" config.TargetPod config.TargetPod "pass")
                 true ]}, None)
  ∧ @applySchemaChecks Demo.actionable Demo.predicates Demo.accessors
      Demo.builtIn Demo.confMissing (PodChecks Demo.plain)
    = (None, Some "Check myOrgCheck not found").
Proof.
  cbv zeta.
  assert (is_Some (config.Checks Demo.confMissing !! "myOrgCheck")) as Hin
    by (vm_compute; eexists; reflexivity).
  assert (config.CustomChecks Demo.confMissing !! "myOrgCheck" = None) as Hc
    by (vm_compute; reflexivity).
  assert (Demo.builtIn !! "myOrgCheck" = None) as Hb by (vm_compute; reflexivity).
  assert (getSortedKeys (config.Checks Demo.confMissing)
          = (["hostIPCSet"; "memoryLimitsMissing"] ++ "myOrgCheck"
               :: ["tlsSettingsMissing"])%list) as Hkeys by (vm_compute; reflexivity).
  assert (@run Demo.actionable Demo.builtIn Demo.confMissing
            (workloadScope Demo.confMissing Demo.plain config.TargetPod EmptyString false
               (λ check, @CheckPod Demo.predicates check (kube.PodSpec Demo.plain)))
            ["hostIPCSet"; "memoryLimitsMissing"] ∅
          = (Some {[ "hostIPCSet" := makeResult Demo.confMissing
                       (Demo.check "hostIPCSet" config.TargetPod config.TargetPod "pass")
                       true ]}, None)) as Hpre by (vm_compute; reflexivity).
  split_and!; [exact Hin|exact Hc|exact Hb|reflexivity|reflexivity|exact Hkeys
              |exact Hpre|].
  exact (proj2 (@C5_check_not_found Demo.actionable Demo.predicates Demo.accessors
                  Demo.builtIn Demo.confMissing (PodChecks Demo.plain) _ "myOrgCheck"
                  Hin Hc Hb eq_refl eq_refl)
           _ _ _ Hkeys Hpre).
Defined.

(** C6 on an example: the predicate of the first check ID fails. *)
Lemma C6_witness :
  let sc :=
    workloadScope Demo.confMalformed Demo.plain config.TargetPod EmptyString false
      (λ check, @CheckPod Demo.predicates check (kube.PodSpec Demo.plain)) in
  let malformed :=
    Demo.check "aCustomCheck" config.TargetPod config.TargetPod "malformed" in
  @scopeOf Demo.predicates Demo.accessors Demo.confMalformed (PodChecks Demo.plain)
    = inr sc
  ∧ getSortedKeys (config.Checks Demo.confMalformed)
    = ([] ++ "aCustomCheck"
         :: ["hostIPCSet"; "memoryLimitsMissing"; "myOrgCheck"; "tlsSettingsMissing"])%list
  ∧ sc_exempt sc "aCustomCheck" = false
  ∧ @resolveCheck Demo.actionable Demo.builtIn Demo.confMalformed "aCustomCheck"
      (sc_kind sc) (sc_target sc) (sc_meta sc) (sc_containerName sc) (sc_isInit sc)
    = inr (Some malformed)
  ∧ sc_evaluate sc malformed = inl "malformed schema"
  ∧ @applySchemaChecks Demo.actionable Demo.predicates Demo.accessors
      Demo.builtIn Demo.confMalformed (PodChecks Demo.plain)
    = (None, Some "malformed schema").
Proof.
  cbv zeta.
  assert (getSortedKeys (config.Checks Demo.confMalformed)
          = ([] ++ "aCustomCheck"
               :: ["hostIPCSet"; "memoryLimitsMissing"; "myOrgCheck";
                   "tlsSettingsMissing"])%list) as Hkeys by (vm_compute; reflexivity).
  assert (@resolveCheck Demo.actionable Demo.builtIn Demo.confMalformed "aCustomCheck"
            "Deployment" config.TargetPod (kube.ObjectMeta Demo.plain) EmptyString false
          = inr (Some (Demo.check "aCustomCheck" config.TargetPod config.TargetPod
                         "malformed"))) as Hres by (vm_compute; reflexivity).
  split_and!; [reflexivity|exact Hkeys|reflexivity|exact Hres|reflexivity|].
  refine (proj1 (@C6_errors_abort_the_pass Demo.actionable Demo.predicates
                   Demo.accessors Demo.builtIn Demo.confMalformed (PodChecks Demo.plain))
            _ [] "aCustomCheck" _ ∅ "malformed schema" eq_refl Hkeys eq_refl eq_refl _).
  right. eexists. split; [exact Hres|reflexivity].
Defined.

(** C7 on an example: two records, read in ascending order of ID. *)
Lemma C7_witness :
  let results : ResultSet :=
    <["zCheck" := makeResult Demo.confTwo
        (Demo.check "zCheck" config.TargetPod config.TargetPod "pass") true]>
    (<["aCheck" := makeResult Demo.confTwo
         (Demo.check "aCheck" config.TargetPod config.TargetPod "fail") false]> ∅) in
  (@applySchemaChecks Demo.actionable Demo.predicates Demo.accessors
     Demo.builtIn Demo.confTwo (PodChecks Demo.plain)).1 = Some results
  ∧ StronglySorted String_lt (ResultMessage.ID <$> ResultSet_iterate results)
  ∧ ResultMessage.ID <$> ResultSet_iterate results = ["aCheck"; "zCheck"].
Proof.
  cbv zeta.
  assert ((@applySchemaChecks Demo.actionable Demo.predicates Demo.accessors
             Demo.builtIn Demo.confTwo (PodChecks Demo.plain)).1
          = Some (<["zCheck" := makeResult Demo.confTwo
                      (Demo.check "zCheck" config.TargetPod config.TargetPod "pass") true]>
                  (<["aCheck" := makeResult Demo.confTwo
                       (Demo.check "aCheck" config.TargetPod config.TargetPod "fail")
                       false]> ∅))) as Hres by (vm_compute; reflexivity).
  split_and!; [exact Hres| |vm_compute; reflexivity].
  exact (proj1 (@C7_results_read_in_ID_order Demo.actionable Demo.predicates
                  Demo.accessors Demo.builtIn Demo.confTwo (PodChecks Demo.plain) _ Hres)).
Defined.

(** C9 on an example: nothing is actionable in [kube-system]. *)
Lemma C9_witness :
  let sc :=
    workloadScope Demo.conf Demo.inKubeSystem config.TargetPod EmptyString false
      (λ check, @CheckPod Demo.predicates check (kube.PodSpec Demo.inKubeSystem)) in
  let hostIPC := Demo.check "hostIPCSet" config.TargetPod config.TargetPod "pass" in
  @scopeOf Demo.predicates Demo.accessors Demo.conf (PodChecks Demo.inKubeSystem) = inr sc
  ∧ lookupCheck Demo.builtIn Demo.conf "hostIPCSet" = Some hostIPC
  ∧ @Configuration_IsActionable Demo.actionable Demo.conf (config.ID hostIPC)
      (metaV1.GetNamespace (sc_meta sc)) (metaV1.GetName (sc_meta sc))
      (sc_containerName sc) = false
  ∧ @resolveCheck Demo.actionable Demo.builtIn Demo.conf "hostIPCSet"
      (sc_kind sc) (sc_target sc) (sc_meta sc) (sc_containerName sc) (sc_isInit sc)
    = inr None
  ∧ @applySchemaChecks Demo.actionable Demo.predicates Demo.accessors
      Demo.builtIn Demo.conf (PodChecks Demo.inKubeSystem) = (Some ∅, None).
Proof.
  cbv zeta.
  assert (lookupCheck Demo.builtIn Demo.conf "hostIPCSet"
          = Some (Demo.check "hostIPCSet" config.TargetPod config.TargetPod "pass"))
    as Hlook by (vm_compute; reflexivity).
  split_and!; [reflexivity|exact Hlook|reflexivity| |vm_compute; reflexivity].
  exact (proj1 (@C9_not_actionable_is_skipped Demo.actionable Demo.predicates
                  Demo.accessors Demo.builtIn Demo.conf (PodChecks Demo.inKubeSystem)
                  _ "hostIPCSet" _ eq_refl Hlook (or_introl eq_refl))).
Defined.

(** C10 on an example: [memoryLimitsMissing] is built in but has no
    severity. *)
Lemma C10_witness :
  let results : ResultSet :=
    {[ "hostIPCSet" := makeResult Demo.confOnlyIPC
         (Demo.check "hostIPCSet" config.TargetPod config.TargetPod "pass") true ]} in
  keyedByID Demo.builtIn
  ∧ keyedByID (config.CustomChecks Demo.confOnlyIPC)
  ∧ is_Some (Demo.builtIn !! "memoryLimitsMissing")
  ∧ config.Checks Demo.confOnlyIPC !! "memoryLimitsMissing" = None
  ∧ (@applySchemaChecks Demo.actionable Demo.predicates Demo.accessors
       Demo.builtIn Demo.confOnlyIPC
       (ContainerChecks Demo.plain Demo.app false)).1 = Some ∅
  ∧ (∅ : ResultSet) !! "memoryLimitsMissing" = None
  ∧ (@applySchemaChecks Demo.actionable Demo.predicates Demo.accessors
       Demo.builtIn Demo.confOnlyIPC (PodChecks Demo.plain)).1 = Some results
  ∧ is_Some (config.Checks Demo.confOnlyIPC !! "hostIPCSet").
Proof.
  cbv zeta.
  assert (keyedByID (config.CustomChecks Demo.confOnlyIPC)) as HC by solve_keyedByID.
  assert ((@applySchemaChecks Demo.actionable Demo.predicates Demo.accessors
             Demo.builtIn Demo.confOnlyIPC
             (ContainerChecks Demo.plain Demo.app false)).1 = Some ∅) as Hres1
    by (vm_compute; reflexivity).
  assert ((@applySchemaChecks Demo.actionable Demo.predicates Demo.accessors
             Demo.builtIn Demo.confOnlyIPC (PodChecks Demo.plain)).1
          = Some {[ "hostIPCSet" := makeResult Demo.confOnlyIPC
                      (Demo.check "hostIPCSet" config.TargetPod config.TargetPod "pass")
                      true ]}) as Hres2 by (vm_compute; reflexivity).
  assert (config.Checks Demo.confOnlyIPC !! "memoryLimitsMissing" = None) as Hnone
    by (vm_compute; reflexivity).
  split_and!; [exact Demo_builtIn_keyed|exact HC|vm_compute; eexists; reflexivity
              |exact Hnone|exact Hres1| |exact Hres2|].
  - exact (proj2 (proj1 (@C10_only_configured_checks Demo.actionable Demo.accessors
                           Demo.builtIn Demo.confOnlyIPC
                           (ContainerChecks Demo.plain Demo.app false)
                           Demo_builtIn_keyed HC)
                    Demo.predicates ∅ "memoryLimitsMissing" Hres1) Hnone).
  - apply (proj1 (proj1 (@C10_only_configured_checks Demo.actionable Demo.accessors
                           Demo.builtIn Demo.confOnlyIPC (PodChecks Demo.plain)
                           Demo_builtIn_keyed HC)
                    Demo.predicates _ "hostIPCSet" Hres2)).
    rewrite lookup_singleton_eq. eexists. reflexivity.
Defined.

(** * Further properties of the engine *)

(** ** The sorted check IDs *)

Lemma getSortedKeys_length (m : gmap string config.Severity) :
  length (getSortedKeys m) = size m.
Proof.
  unfold getSortedKeys. rewrite sort_Strings_Permutation, length_fmap.
  apply length_map_to_list.
Qed.

(** X8.  [getSortedKeys] returns every key of the mapping, each once, in
    strictly ascending bytewise order; so it is as long as the mapping
    is large, and empty exactly for the empty mapping. *)
Theorem X8_getSortedKeys_exact (m : gmap string config.Severity) :
  StronglySorted String_lt (getSortedKeys m)
  ∧ NoDup (getSortedKeys m)
  ∧ (∀ key, key ∈ getSortedKeys m ↔ is_Some (m !! key))
  ∧ length (getSortedKeys m) = size m
  ∧ (getSortedKeys m = [] ↔ m = ∅).
Proof.
  pose proof (getSortedKeys_length m) as Hlen.
  split_and!.
  - apply getSortedKeys_sorted.
  - apply getSortedKeys_NoDup.
  - apply getSortedKeys_elem_of.
  - exact Hlen.
  - rewrite <-length_zero_iff_nil, Hlen. apply map_size_empty_iff.
Qed.

(** ** The exemption annotations *)

Lemma String_app_inj_r (s1 s2 suffix : string) :
  s1 +:+ suffix = s2 +:+ suffix → s1 = s2.
Proof.
  revert s2. induction s1 as [|c s1 IH]; intros [|c' s2] Heq; [done| | |].
  - apply (f_equal String.length) in Heq. rewrite !String_length_app in Heq.
    cbn in Heq. lia.
  - apply (f_equal String.length) in Heq. rewrite !String_length_app in Heq.
    cbn in Heq. lia.
  - change (String c (s1 +:+ suffix) = String c' (s2 +:+ suffix)) in Heq.
    injection Heq as -> Heq. f_equal. by apply IH.
Qed.

Lemma exemptionAnnotationPattern_ne (X Y : string) :
  Y ≠ X → exemptionAnnotationPattern X ≠ exemptionAnnotationPattern Y.
Proof.
  intros Hne Heq. unfold exemptionAnnotationPattern in Heq.
  apply (inj (String.app _)), String_app_inj_r in Heq. by subst.
Qed.

Lemma exemptionAnnotationPattern_not_blanket (X : string) :
  exemptionAnnotationPattern X ≠ exemptionAnnotationKey.
Proof.
  unfold exemptionAnnotationPattern, exemptionAnnotationKey.
  change "polaris.fairwinds.com/exempt" with ("polaris.fairwinds.com/" +:+ "exempt").
  intros Heq%(inj (String.app _)).
  apply (f_equal String.length) in Heq. rewrite String_length_app in Heq.
  cbn in Heq. lia.
Qed.

(** X13.  The per-check exemption keys of different check IDs are
    different, and none of them is the blanket key. *)
Theorem X13_exemption_keys_distinct (X Y : string) :
  (exemptionAnnotationPattern X = exemptionAnnotationPattern Y ↔ X = Y)
  ∧ exemptionAnnotationPattern X ≠ exemptionAnnotationKey.
Proof.
  split; [|apply exemptionAnnotationPattern_not_blanket].
  split; [|by intros ->]. intros Heq.
  destruct (decide (Y = X)) as [->|Hne]; [done|].
  by destruct (exemptionAnnotationPattern_ne X Y Hne).
Qed.

Lemma trueInAnyCase_empty : ¬ trueInAnyCase EmptyString.
Proof. by intros (? & ? & ? & ? & ? & _). Qed.

(** X9.  [hasExemptionAnnotation] answers true exactly when the blanket
    key or the per-check key of the check ID is present with the value
    "true" in some letter case; a missing key or any other value does
    not exempt. *)
Theorem X9_hasExemptionAnnotation_iff (ctrl : kube.GenericWorkload) (checkID : string) :
  hasExemptionAnnotation ctrl checkID = true
  ↔ (∃ val, metaV1.Annotations (kube.ObjectMeta ctrl) !! exemptionAnnotationKey
              = Some val ∧ trueInAnyCase val)
    ∨ (∃ val, metaV1.Annotations (kube.ObjectMeta ctrl)
                !! exemptionAnnotationPattern checkID = Some val
              ∧ trueInAnyCase val).
Proof.
  unfold hasExemptionAnnotation, index, metaV1.GetAnnotations.
  destruct (metaV1.Annotations (kube.ObjectMeta ctrl) !! exemptionAnnotationKey)
    as [v1|] eqn:H1;
    destruct (metaV1.Annotations (kube.ObjectMeta ctrl)
                !! exemptionAnnotationPattern checkID) as [v2|] eqn:H2;
    cbn [default]; repeat case_decide;
    repeat match goal with
      | H : strings_ToLower _ = "true" |- _ => apply strings_ToLower_true_iff in H
      | H : strings_ToLower _ ≠ "true" |- _ => rewrite strings_ToLower_true_iff in H
      end;
    (split; [intros Ht|intros [(v & Hv & Htrue)|(v & Hv & Htrue)]]);
    simplify_eq; eauto; exfalso; eauto using trueInAnyCase_empty.
Qed.

(** ** Loading the built-in catalog *)

Section LoadingFacts.
Context `{SchemaBox}.

Lemma parseCheck_loop_app pre post check :
  parseCheck_loop (pre ++ post) check
  = match parseCheck_loop pre check with
    | (check', None) => parseCheck_loop post check'
    | r => r
    end.
Proof.
  revert check. induction pre as [|decode pre IH]; intros check; [done|].
  cbn [app parseCheck_loop]. destruct (decode check) as [check' [err|]]; [done|apply IH].
Qed.

Lemma parseCheck_loop_error d check check' msg :
  parseCheck_loop d check = (check', Some msg) →
  ∃ err, msg = "Decoding schema check failed: " +:+ err.
Proof.
  revert check. induction d as [|decode d IH]; intros check; [done|].
  cbn [parseCheck_loop]. destruct (decode check) as [c [err|]]; [|apply IH].
  intros [= _ <-]. by eexists.
Qed.

Lemma loaded_Some checkID check :
  loaded checkID = Some check → config.ID check = checkID.
Proof.
  unfold loaded. destruct (schemaBox_Find _); [done|].
  destruct (parseCheck _) as [c [?|]]; [done|]. by intros [= <-].
Qed.

Lemma loaded_None checkID :
  loaded checkID = None
  ↔ (∃ err, schemaBox_Find (checkID +:+ ".yaml") = inl err)
    ∨ (∃ contents check err,
         schemaBox_Find (checkID +:+ ".yaml") = inr contents
         ∧ parseCheck contents = (check, Some err)).
Proof.
  unfold loaded. destruct (schemaBox_Find _) as [err|contents].
  - split; [|done]. intros _. left. by eexists.
  - destruct (parseCheck contents) as [c [err|]] eqn:Hp.
    + split; [|done]. intros _. right. by exists contents, c, err.
    + split; [done|]. intros [[? ?]|(? & ? & ? & [= <-] & Hp')]; [done|].
      by rewrite Hp in Hp'.
Qed.

Lemma init_loop_loaded checkID rest builtInChecks :
  init_loop (checkID :: rest) builtInChecks
  = match loaded checkID with
    | None => None
    | Some check => init_loop rest (<[checkID := check]> builtInChecks)
    end.
Proof.
  cbn [init_loop]. unfold loaded. destruct (schemaBox_Find _); [done|].
  by destruct (parseCheck _) as [c [?|]].
Qed.

Lemma init_loop_Some checkIDs builtInChecks catalog :
  init_loop checkIDs builtInChecks = Some catalog →
  ∀ key, catalog !! key
         = if decide (key ∈ checkIDs) then loaded key else builtInChecks !! key.
Proof.
  revert builtInChecks. induction checkIDs as [|checkID rest IH]; intros m.
  - intros [= <-] key. by rewrite decide_False by apply not_elem_of_nil.
  - rewrite init_loop_loaded. destruct (loaded checkID) as [check|] eqn:Hl; [|done].
    intros Hrest key. rewrite (IH _ Hrest key).
    destruct (decide (key ∈ rest)) as [Hin|Hnin].
    + rewrite decide_True; [done|by right].
    + destruct (decide (key = checkID)) as [->|Hne].
      * rewrite lookup_insert_eq, decide_True; [done|by left].
      * rewrite lookup_insert_ne by done. rewrite decide_False; [done|].
        by intros [?|?]%elem_of_cons.
Qed.

Lemma init_loop_None checkIDs builtInChecks :
  init_loop checkIDs builtInChecks = None
  ↔ ∃ checkID, checkID ∈ checkIDs ∧ loaded checkID = None.
Proof.
  revert builtInChecks. induction checkIDs as [|checkID rest IH]; intros m.
  - split; [done|]. by intros (? & ?%elem_of_nil & _).
  - rewrite init_loop_loaded. destruct (loaded checkID) as [check|] eqn:Hl.
    + rewrite IH. split.
      * intros (k & Hin & Hk). exists k. split; [by right|done].
      * intros (k & [->|Hin]%elem_of_cons & Hk); [by rewrite Hl in Hk|]. by exists k.
    + split; [|done]. intros _. exists checkID. split; [by left|done].
Qed.

(** X1.  When [init] does not panic, the catalog it leaves holds, for
    every check ID of the declared order and for no other key, the
    definition parsed from that check's file, with its [ID] set to the
    check ID: the catalog is keyed by ID.  Without repeats in the order,
    it has as many definitions as the order has entries. *)
Theorem X1_init_catalog (order : list string)
    (catalog : gmap string config.SchemaCheck) :
  init_with order = Some catalog →
  keyedByID catalog
  ∧ (∀ key, is_Some (catalog !! key) ↔ key ∈ order)
  ∧ (∀ key, key ∈ order →
       ∃ contents check,
         schemaBox_Find (key +:+ ".yaml") = inr contents
         ∧ parseCheck contents = (check, None)
         ∧ catalog !! key = Some (config.set_ID check key))
  ∧ (NoDup order → size catalog = length order).
Proof.
  intros Hinit.
  pose proof (init_loop_Some _ _ _ Hinit) as Hlook.
  assert (∀ key, key ∈ order → is_Some (loaded key)) as Hall.
  { intros key Hin. destruct (loaded key) eqn:Hl; [by eexists|].
    assert (init_loop order ∅ = None) as Hn by (apply init_loop_None; eauto).
    unfold init_with in Hinit. by rewrite Hn in Hinit. }
  assert (∀ key, is_Some (catalog !! key) ↔ key ∈ order) as Hdom.
  { intros key. rewrite Hlook. case_decide as Hin.
    - split; [done|]. intros _. by apply Hall.
    - rewrite lookup_empty. split; [by intros [? ?]|done]. }
  split_and!.
  - intros key check Hk. rewrite Hlook in Hk. case_decide; [|by rewrite lookup_empty in Hk].
    by apply loaded_Some.
  - exact Hdom.
  - intros key Hin. rewrite Hlook, decide_True by done.
    unfold loaded. destruct (schemaBox_Find _) as [err|contents] eqn:Hf.
    { destruct (Hall key Hin) as [c Hc]. unfold loaded in Hc. by rewrite Hf in Hc. }
    destruct (parseCheck contents) as [check [err|]] eqn:Hp.
    { destruct (Hall key Hin) as [c Hc]. unfold loaded in Hc.
      by rewrite Hf, Hp in Hc. }
    by exists contents, check.
  - intros Hnd. rewrite <-size_dom, <-(size_list_to_set (C := gset string) order Hnd).
    f_equal. apply set_eq. intros key.
    by rewrite elem_of_dom, elem_of_list_to_set.
Qed.

(** X2.  [init] panics exactly when the file of some check ID of the
    declared order is not found in the box or does not parse. *)
Theorem X2_init_panics_iff (order : list string) :
  init_with order = None
  ↔ ∃ checkID,
      checkID ∈ order
      ∧ ((∃ err, schemaBox_Find (checkID +:+ ".yaml") = inl err)
         ∨ (∃ contents check err,
              schemaBox_Find (checkID +:+ ".yaml") = inr contents
              ∧ parseCheck contents = (check, Some err))).
Proof.
  unfold init_with. rewrite init_loop_None.
  split; intros (k & Hin & Hk); exists k; (split; [done|]); by apply loaded_None.
Qed.

(** X3.  [parseCheck] decodes the documents of its input one after the
    other into the same struct and stops at the first one that fails:
    it then returns the struct as that failing [Decode] left it,
    whatever it had written into it, together with the decoder error
    behind the prefix "Decoding schema check failed: ", and the
    documents that follow are not decoded.  Every error it returns has
    that prefix. *)
Theorem X3_parseCheck_first_failure (rawBytes : string)
    (pre post : list (config.SchemaCheck → config.SchemaCheck * option error))
    (decode : config.SchemaCheck → config.SchemaCheck * option error)
    (check check' : config.SchemaCheck) (err : error) :
  yaml_Decode rawBytes = (pre ++ decode :: post)%list →
  parseCheck_loop pre config.zero = (check, None) →
  decode check = (check', Some err) →
  parseCheck rawBytes = (check', Some ("Decoding schema check failed: " +:+ err))
  ∧ ∀ check'' msg,
      parseCheck rawBytes = (check'', Some msg) →
      ∃ err', msg = "Decoding schema check failed: " +:+ err'.
Proof.
  intros Hdocs Hpre Hdec. split.
  - unfold parseCheck. rewrite Hdocs, parseCheck_loop_app, Hpre.
    cbn [parseCheck_loop]. by rewrite Hdec.
  - intros check'' msg. apply parseCheck_loop_error.
Qed.

End LoadingFacts.

Example checkOrder_NoDup : NoDup checkOrder ∧ length checkOrder = 22.
Proof.
  split; [|reflexivity].
  apply (bool_decide_unpack (NoDup checkOrder)). vm_compute. reflexivity.
Qed.

(** ** The turns of the loop *)

Section TurnFacts.
Context `{Actionable}.
Variable builtInChecks : gmap string config.SchemaCheck.
Variable conf : config.Configuration.

Lemma step_Recorded_iff sc checkID check passes :
  step builtInChecks conf sc checkID = Recorded check passes
  ↔ sc_exempt sc checkID = false
    ∧ resolveCheck builtInChecks conf checkID (sc_kind sc) (sc_target sc) (sc_meta sc)
        (sc_containerName sc) (sc_isInit sc) = inr (Some check)
    ∧ sc_evaluate sc check = inr passes.
Proof.
  unfold step. destruct (sc_exempt sc checkID); [by split; [|intros (? & _)]|].
  destruct (resolveCheck _ _ _ _ _ _ _ _) as [err|[c|]];
    [by split; [|intros (_ & ? & _)]| |by split; [|intros (_ & ? & _)]].
  destruct (sc_evaluate sc c) as [err|p] eqn:He.
  - split; [done|]. intros (_ & [= ->] & He'). by rewrite He in He'.
  - split.
    + by intros [= -> ->].
    + intros (_ & [= ->] & He'). rewrite He in He'. by injection He' as ->.
Qed.

Lemma step_Aborted_iff sc checkID err :
  step builtInChecks conf sc checkID = Aborted err
  ↔ sc_exempt sc checkID = false
    ∧ (resolveCheck builtInChecks conf checkID (sc_kind sc) (sc_target sc) (sc_meta sc)
         (sc_containerName sc) (sc_isInit sc) = inl err
       ∨ ∃ check,
           resolveCheck builtInChecks conf checkID (sc_kind sc) (sc_target sc)
             (sc_meta sc) (sc_containerName sc) (sc_isInit sc) = inr (Some check)
           ∧ sc_evaluate sc check = inl err).
Proof.
  unfold step. destruct (sc_exempt sc checkID); [by split; [|intros (? & _)]|].
  destruct (resolveCheck _ _ _ _ _ _ _ _) as [err'|[c|]].
  - split.
    + intros [= ->]. split; [done|by left].
    + intros (_ & [[= ->]|(? & ? & _)]); done.
  - destruct (sc_evaluate sc c) as [err'|p] eqn:He.
    + split.
      * intros [= ->]. split; [done|]. right. by exists c.
      * intros (_ & [?|(c' & [= <-] & He')]); [done|]. rewrite He in He'.
        by injection He' as ->.
    + split; [done|]. intros (_ & [?|(c' & [= <-] & He')]); [done|].
      by rewrite He in He'.
  - split; [done|]. by intros (_ & [?|(? & ? & _)]).
Qed.

Lemma run_step_ext sc1 sc2 checkIDs results :
  (∀ checkID, checkID ∈ checkIDs →
     step builtInChecks conf sc1 checkID = step builtInChecks conf sc2 checkID) →
  run builtInChecks conf sc1 checkIDs results
  = run builtInChecks conf sc2 checkIDs results.
Proof.
  revert results. induction checkIDs as [|checkID rest IH]; intros results Hall; [done|].
  cbn [run]. rewrite (Hall checkID) by left.
  destruct (step _ _ sc2 _); [|done|]; apply IH; intros ??; apply Hall; by right.
Qed.

Lemma run_no_abort sc checkIDs results :
  (∀ checkID err, checkID ∈ checkIDs →
     step builtInChecks conf sc checkID ≠ Aborted err) →
  ∃ results', run builtInChecks conf sc checkIDs results = (Some results', None).
Proof.
  revert results. induction checkIDs as [|checkID rest IH]; intros results Hall.
  - by eexists.
  - cbn [run]. destruct (step _ _ _ checkID) as [|err|check passes] eqn:Hs.
    + apply IH. intros ???. apply Hall. by right.
    + by destruct (Hall checkID err (list_elem_of_here _ _)).
    + apply IH. intros ???. apply Hall. by right.
Qed.

(** Each turn adds at most one record. *)
Lemma run_size sc checkIDs results results' :
  run builtInChecks conf sc checkIDs results = (Some results', None) →
  (size results' ≤ size results + length checkIDs)%nat.
Proof.
  revert results. induction checkIDs as [|checkID rest IH]; intros results.
  - intros [= ->]. lia.
  - cbn [run length]. destruct (step _ _ _ _) as [|err|check passes]; [|done|].
    + intros Hr%IH. lia.
    + intros Hr%IH. rewrite map_size_insert in Hr. case_match; cbn in Hr; lia.
Qed.


Section Keyed.
Hypothesis builtIn_keyed : keyedByID builtInChecks.
Hypothesis custom_keyed : keyedByID (config.CustomChecks conf).

Lemma step_Recorded_ID sc checkID check passes :
  step builtInChecks conf sc checkID = Recorded check passes →
  config.ID check = checkID.
Proof.
  intros (Hlook & _)%step_Recorded.
  exact (lookupCheck_keyed _ _ _ _ builtIn_keyed custom_keyed Hlook).
Qed.

(** Later turns leave the record of another check ID alone. *)
Lemma run_lookup_other sc checkIDs results results' key :
  run builtInChecks conf sc checkIDs results = (Some results', None) →
  key ∉ checkIDs →
  results' !! key = results !! key.
Proof.
  revert results. induction checkIDs as [|checkID rest IH]; intros results.
  - by intros [= ->].
  - cbn [run]. intros Hrun [Hne Hnin]%not_elem_of_cons.
    destruct (step _ _ _ checkID) as [|err|check passes] eqn:Hs; [by apply IH|done|].
    rewrite (IH _ Hrun Hnin), lookup_insert_ne; [done|].
    by rewrite (step_Recorded_ID _ _ _ _ Hs).
Qed.

(** The record made in a turn is in the finished set. *)
Lemma run_lookup_recorded sc checkIDs results results' checkID check passes :
  run builtInChecks conf sc checkIDs results = (Some results', None) →
  NoDup checkIDs →
  checkID ∈ checkIDs →
  step builtInChecks conf sc checkID = Recorded check passes →
  results' !! checkID = Some (makeResult conf check passes).
Proof.
  revert results. induction checkIDs as [|id rest IH]; intros results Hrun Hnd Hin Hs.
  - by apply elem_of_nil in Hin.
  - apply NoDup_cons in Hnd as [Hnin Hnd]. cbn [run] in Hrun.
    apply elem_of_cons in Hin as [->|Hin].
    + rewrite Hs in Hrun. rewrite (run_lookup_other _ _ _ _ _ Hrun Hnin).
      rewrite (step_Recorded_ID _ _ _ _ Hs). apply lookup_insert_eq.
    + destruct (step _ _ _ id); [|done|]; by eapply IH.
Qed.


End Keyed.

End TurnFacts.

(** ** Container scope: the synthetic pod *)

(** C8.  In a container-scope pass, a check that is not exempted, is
    admitted for the target container and whose definition is
    pod-shaped has its predicate [CheckPod] run on a copy of the pod
    specification that holds exactly the target container and an empty
    init-container list: with catalogs keyed by ID, a ResultSet the pass
    returns holds under that check's ID the record of [CheckPod]'s
    answer on that copy, and when [CheckPod] fails on that copy the pass
    returns an error and no ResultSet.  Hence two workloads that differ
    only in their containers give the same synthetic pod, and the
    container-scope pass for a given target container returns the same
    result, record for record, on both. *)
Theorem C8_container_checks_see_one_container `{Actionable} `{Predicates} `{Accessors}
    (builtInChecks : gmap string config.SchemaCheck) (conf : config.Configuration)
    (w1 w2 : kube.GenericWorkload) (container : corev1.Container) (isInit : bool) :
  (keyedByID builtInChecks →
   keyedByID (config.CustomChecks conf) →
   ∀ checkID check,
     is_Some (config.Checks conf !! checkID) →
     negb (config.DisallowExemptions conf) && hasExemptionAnnotation w1 checkID = false →
     resolveCheck builtInChecks conf checkID (kube.Kind w1) config.TargetContainer
       (kube.ObjectMeta w1) (corev1.Name container) isInit = inr (Some check) →
     config.SchemaTarget check = config.TargetPod →
     (∀ results,
        (applyContainerSchemaChecks builtInChecks conf w1 container isInit).1
        = Some results →
        ∃ passes,
          CheckPod check (podCopy w1 container) = inr passes
          ∧ results !! checkID = Some (makeResult conf check passes))
     ∧ (∀ err,
          CheckPod check (podCopy w1 container) = inl err →
          ∃ err',
            applyContainerSchemaChecks builtInChecks conf w1 container isInit
            = (None, Some err')))
  ∧ corev1.Containers (podCopy w1 container) = [container]
  ∧ corev1.InitContainers (podCopy w1 container) = []
  ∧ (sameButContainers w1 w2 →
     podCopy w1 container = podCopy w2 container
     ∧ applyContainerSchemaChecks builtInChecks conf w1 container isInit
       = applyContainerSchemaChecks builtInChecks conf w2 container isInit).
Proof.
  split_and!; [|done|done|].
  - intros HB HC checkID check Hin%getSortedKeys_elem_of Hex Hres Hpod.
    unfold applyContainerSchemaChecks. rewrite applyContainerSchemaChecks_loop_run.
    set (sc := workloadScope conf w1 config.TargetContainer (corev1.Name container)
                 isInit (evaluateContainer w1 container)).
    assert (sc_evaluate sc check = CheckPod check (podCopy w1 container)) as Hev.
    { cbn. unfold evaluateContainer. by rewrite decide_True. }
    split.
    + intros results.
      destruct (run_result builtInChecks conf sc (getSortedKeys (config.Checks conf)) ∅)
        as [[rs Hrun]|[err Hrun]]; rewrite Hrun; [|done].
      intros [= ->].
      destruct (CheckPod check (podCopy w1 container)) as [err|passes] eqn:Hcp.
      * assert (step builtInChecks conf sc checkID = Aborted err) as Hstep.
        { apply step_Aborted_iff. split; [exact Hex|]. right. exists check.
          split; [exact Hres|]. by rewrite Hev. }
        destruct (run_abort_somewhere builtInChecks conf sc _ _ ∅ _ Hin Hstep)
          as [err' Hab].
        by rewrite Hab in Hrun.
      * exists passes. split; [done|].
        eapply (run_lookup_recorded _ _ HB HC);
          [exact Hrun|apply getSortedKeys_NoDup|exact Hin|].
        apply step_Recorded_iff. split_and!; [exact Hex|exact Hres|by rewrite Hev].
    + intros err Hcp.
      apply (run_abort_somewhere builtInChecks conf sc _ checkID ∅ err Hin).
      apply step_Aborted_iff. split; [exact Hex|]. right. exists check.
      split; [exact Hres|]. by rewrite Hev.
  - intros Hsame. split; [by apply podCopy_sameButContainers|].
    unfold applyContainerSchemaChecks. rewrite !applyContainerSchemaChecks_loop_run.
    pose proof (podCopy_sameButContainers _ _ container Hsame) as Hcopy.
    destruct Hsame as (Hk & Hm & _).
    apply run_agree. split_and!; cbn; try done.
    + intros checkID _. by rewrite (hasExemptionAnnotation_meta w1 w2).
    + by rewrite Hm.
    + by rewrite Hm.
    + intros checkID check _ _. unfold evaluateContainer. by rewrite Hcopy.
Qed.

Lemma Demo_confPodShaped_keyed : keyedByID (config.CustomChecks Demo.confPodShaped).
Proof. solve_keyedByID. Qed.

(** C8 on an example: a pod-shaped container check that counts the
    containers it is shown fails on the pod specification of a workload
    with a sidecar and passes on the synthetic pod; the container pass
    records the latter answer, the same as for the workload without the
    sidecar. *)
Lemma C8_witness :
  let oneContainer :=
    Demo.check "oneContainer" config.TargetContainer config.TargetPod "oneContainer" in
  keyedByID Demo.builtIn
  ∧ keyedByID (config.CustomChecks Demo.confPodShaped)
  ∧ config.Checks Demo.confPodShaped !! "oneContainer" = Some "danger"
  ∧ negb (config.DisallowExemptions Demo.confPodShaped)
    && hasExemptionAnnotation Demo.twoContainers "oneContainer" = false
  ∧ @resolveCheck Demo.actionable Demo.builtIn Demo.confPodShaped "oneContainer"
      (kube.Kind Demo.twoContainers) config.TargetContainer
      (kube.ObjectMeta Demo.twoContainers) (corev1.Name Demo.app) false
    = inr (Some oneContainer)
  ∧ config.SchemaTarget oneContainer = config.TargetPod
  ∧ @CheckPod Demo.predicates oneContainer (kube.PodSpec Demo.twoContainers) = inr false
  ∧ @CheckPod Demo.predicates oneContainer (podCopy Demo.twoContainers Demo.app) = inr true
  ∧ (∃ results,
       (@applyContainerSchemaChecks Demo.actionable Demo.predicates
          Demo.builtIn Demo.confPodShaped Demo.twoContainers Demo.app false).1
       = Some results
       ∧ results !! "oneContainer" = Some (makeResult Demo.confPodShaped oneContainer true))
  ∧ sameButContainers Demo.twoContainers Demo.plain
  ∧ @applyContainerSchemaChecks Demo.actionable Demo.predicates
      Demo.builtIn Demo.confPodShaped Demo.twoContainers Demo.app false
    = @applyContainerSchemaChecks Demo.actionable Demo.predicates
        Demo.builtIn Demo.confPodShaped Demo.plain Demo.app false.
Proof.
  intros oneContainer.
  assert (sameButContainers Demo.twoContainers Demo.plain) as Hsame
    by (split_and!; reflexivity).
  destruct (@C8_container_checks_see_one_container Demo.actionable Demo.predicates
              Demo.accessors Demo.builtIn Demo.confPodShaped Demo.twoContainers
              Demo.plain Demo.app false) as (Hrec & _ & _ & Hiso).
  split_and!;
    [exact Demo_builtIn_keyed|exact Demo_confPodShaped_keyed|reflexivity|reflexivity
    |reflexivity|reflexivity|reflexivity|reflexivity| |exact Hsame
    |exact (proj2 (Hiso Hsame))].
  destruct (Hrec Demo_builtIn_keyed Demo_confPodShaped_keyed "oneContainer" oneContainer
              (ex_intro _ _ eq_refl) eq_refl eq_refl eq_refl) as (Hret & _).
  eexists. split; [vm_compute; reflexivity|].
  destruct (Hret _ ltac:(vm_compute; reflexivity)) as (passes & Hcp & Hr).
  vm_compute in Hcp. injection Hcp as <-. exact Hr.
Defined.

(** ** What a pass returns *)

(** X4.  With catalogs keyed by ID, the ResultSet of a pass that
    completes holds a record under a check ID exactly when that ID has a
    severity, is not exempted, resolves to a definition that both
    admission tests accept, and the predicate answers without error; the
    record is then the one [makeResult] builds from that definition and
    that answer. *)
Theorem X4_records_exactly `{Actionable} `{Predicates} `{Accessors}
    (builtInChecks : gmap string config.SchemaCheck) (conf : config.Configuration)
    (e : EntryPoint) (sc : Scope) (results : ResultSet) :
  keyedByID builtInChecks →
  keyedByID (config.CustomChecks conf) →
  scopeOf conf e = inr sc →
  applySchemaChecks builtInChecks conf e = (Some results, None) →
  ∀ checkID r,
    results !! checkID = Some r
    ↔ is_Some (config.Checks conf !! checkID)
      ∧ sc_exempt sc checkID = false
      ∧ ∃ check passes,
          resolveCheck builtInChecks conf checkID (sc_kind sc) (sc_target sc)
            (sc_meta sc) (sc_containerName sc) (sc_isInit sc) = inr (Some check)
          ∧ sc_evaluate sc check = inr passes
          ∧ r = makeResult conf check passes.
Proof.
  intros HB HC Hsc. rewrite applySchemaChecks_run, Hsc. intros Hrun checkID r. split.
  - intros Hr.
    destruct (run_lookup _ _ _ _ _ _ _ _ Hrun Hr)
      as [?|(id & check & passes & Hin & Hstep & Hid & ->)]; [done|].
    rewrite (step_Recorded_ID _ _ HB HC _ _ _ _ Hstep) in Hid. subst id.
    apply step_Recorded_iff in Hstep as (Hex & Hres & Hev).
    split_and!; [by apply getSortedKeys_elem_of|done|by exists check, passes].
  - intros (Hin%getSortedKeys_elem_of & Hex & check & passes & Hres & Hev & ->).
    eapply (run_lookup_recorded _ _ HB HC); [done|apply getSortedKeys_NoDup|done|].
    by apply step_Recorded_iff.
Qed.

(** X11.  With catalogs keyed by ID, every record of a returned
    ResultSet is stored under its own ID and carries the severity the
    configuration gives that ID, the category of the definition the ID
    resolves to, and that definition's success or failure message
    according to the verdict. *)
Theorem X11_record_contents `{Actionable} `{Predicates} `{Accessors}
    (builtInChecks : gmap string config.SchemaCheck) (conf : config.Configuration)
    (e : EntryPoint) (results : ResultSet) (checkID : string) (r : ResultMessage.t) :
  keyedByID builtInChecks →
  keyedByID (config.CustomChecks conf) →
  (applySchemaChecks builtInChecks conf e).1 = Some results →
  results !! checkID = Some r →
  ResultMessage.ID r = checkID
  ∧ config.Checks conf !! checkID = Some (ResultMessage.Severity r)
  ∧ ∃ check,
      lookupCheck builtInChecks conf checkID = Some check
      ∧ ResultMessage.Category r = config.Category check
      ∧ ResultMessage.Message r
        = if ResultMessage.Success r then config.SuccessMessage check
          else config.FailureMessage check.
Proof.
  intros HB HC. rewrite applySchemaChecks_run.
  destruct (scopeOf conf e) as [err|sc]; [by intros [= <-]|].
  destruct (run_result builtInChecks conf sc (getSortedKeys (config.Checks conf)) ∅)
    as [[rs Hrun]|[err Hrun]]; rewrite Hrun; [|done].
  intros [= ->] Hr.
  destruct (run_lookup _ _ _ _ _ _ _ _ Hrun Hr)
    as [?|(id & check & passes & Hin & Hstep & Hid & ->)]; [done|].
  pose proof (step_Recorded_ID _ _ HB HC _ _ _ _ Hstep) as Hid'.
  rewrite Hid' in Hid. subst id.
  apply getSortedKeys_elem_of in Hin as [s Hs].
  apply step_Recorded in Hstep as (Hlook & _).
  split_and!.
  - exact Hid'.
  - unfold makeResult; cbn [ResultMessage.Severity]. rewrite Hid'.
    unfold config.Severity in *. by rewrite Hs.
  - exists check. split_and!; [exact Hlook|reflexivity|reflexivity].
Qed.

(** X6.  A returned ResultSet never has more records than the
    configuration has check IDs with a severity. *)
Theorem X6_at_most_one_record_per_check `{Actionable} `{Predicates} `{Accessors}
    (builtInChecks : gmap string config.SchemaCheck) (conf : config.Configuration)
    (e : EntryPoint) (results : ResultSet) :
  (applySchemaChecks builtInChecks conf e).1 = Some results →
  (size results ≤ size (config.Checks conf))%nat.
Proof.
  rewrite applySchemaChecks_run.
  destruct (scopeOf conf e) as [err|sc].
  { intros [= <-]. rewrite map_size_empty. lia. }
  destruct (run_result builtInChecks conf sc (getSortedKeys (config.Checks conf)) ∅)
    as [[rs Hrun]|[err Hrun]]; rewrite Hrun; [|done].
  intros [= ->]. apply run_size in Hrun. rewrite map_size_empty in Hrun.
  rewrite getSortedKeys_length in Hrun. lia.
Qed.

(** ** Which error a pass returns *)

Lemma sorted_before (l pre post : list string) (key key' : string) :
  StronglySorted String_lt l → NoDup l →
  l = (pre ++ key :: post)%list →
  key' ∈ pre → String_lt key' key.
Proof.
  intros Hs _ -> Hin.
  eapply (StronglySorted_app_1_elem_of String_lt pre (key :: post)); [done|done|by left].
Qed.

(** X5.  A pass whose accessor succeeds completes exactly when no turn
    of a check ID with a severity aborts.  When some turn aborts, the
    error returned is that of the aborting check ID that comes first in
    bytewise order. *)
Theorem X5_first_error_in_ID_order `{Actionable} `{Predicates} `{Accessors}
    (builtInChecks : gmap string config.SchemaCheck) (conf : config.Configuration)
    (e : EntryPoint) (sc : Scope) :
  scopeOf conf e = inr sc →
  ((∃ results, applySchemaChecks builtInChecks conf e = (Some results, None))
   ↔ ∀ checkID err,
       is_Some (config.Checks conf !! checkID) →
       step builtInChecks conf sc checkID ≠ Aborted err)
  ∧ ∀ checkID err,
      is_Some (config.Checks conf !! checkID) →
      step builtInChecks conf sc checkID = Aborted err →
      (∀ checkID' err',
         is_Some (config.Checks conf !! checkID') →
         String_lt checkID' checkID →
         step builtInChecks conf sc checkID' ≠ Aborted err') →
      applySchemaChecks builtInChecks conf e = (None, Some err).
Proof.
  intros Hsc. rewrite applySchemaChecks_run, Hsc. split; [split|].
  - intros [results Hrun] checkID err Hin%getSortedKeys_elem_of Hstep.
    destruct (run_abort_somewhere builtInChecks conf sc _ _ ∅ _ Hin Hstep) as [err' Hab].
    by rewrite Hab in Hrun.
  - intros Hall. apply run_no_abort. intros checkID err Hin.
    apply Hall. by apply getSortedKeys_elem_of.
  - intros checkID err Hin Hstep Hfirst.
    apply getSortedKeys_elem_of, list_elem_of_split in Hin as (pre & post & Hkeys).
    destruct (run_no_abort builtInChecks conf sc pre ∅) as [rs Hpre].
    { intros checkID' err' Hin'. apply Hfirst.
      - apply getSortedKeys_elem_of. rewrite Hkeys. apply elem_of_app. by left.
      - eapply sorted_before;
          [apply getSortedKeys_sorted|apply getSortedKeys_NoDup|exact Hkeys|done]. }
    rewrite Hkeys. by eapply run_abort.
Qed.

(** ** Entry points that agree *)

(** X7.  [applyOtherSchemaChecks] and [applyArbitrarySchemaChecks]
    differ only in the target they hand to the structural test (the
    empty target and [TargetOther]): for an object on which that test
    answers alike for both targets, on every definition a configured
    check ID resolves to, they return the same result. *)
Theorem X7_other_and_arbitrary_agree `{Actionable} `{Predicates} `{Accessors}
    (builtInChecks : gmap string config.SchemaCheck) (conf : config.Configuration)
    (unst : unstructured.Unstructured) :
  (∀ checkID check,
     is_Some (config.Checks conf !! checkID) →
     lookupCheck builtInChecks conf checkID = Some check →
     SchemaCheck_IsActionable check EmptyString (unstructured.GetKind unst) false
     = SchemaCheck_IsActionable check config.TargetOther
         (unstructured.GetKind unst) false) →
  applyOtherSchemaChecks builtInChecks conf unst
  = applyArbitrarySchemaChecks builtInChecks conf unst.
Proof.
  intros Hsame. unfold applyOtherSchemaChecks, applyArbitrarySchemaChecks.
  destruct (meta_Accessor unst) as [err|objMeta]; [done|].
  rewrite !applyObjectSchemaChecks_loop_run. apply run_step_ext.
  intros checkID Hin%getSortedKeys_elem_of. unfold step, resolveCheck.
  cbn [objectScope sc_exempt sc_kind sc_target sc_meta sc_containerName sc_isInit
       sc_evaluate].
  destruct (lookupCheck builtInChecks conf checkID) as [check|] eqn:Hlook; [|done].
  by rewrite (Hsame checkID check Hin Hlook).
Qed.

(** X12.  Each workload entry point reads only its own fragment: the
    pod and container passes do not depend on the serialised original
    object, and the controller pass does not depend on the pod
    specification. *)
Theorem X12_fragment_of_each_scope `{Actionable} `{Predicates} `{Accessors}
    (builtInChecks : gmap string config.SchemaCheck) (conf : config.Configuration)
    (w1 w2 : kube.GenericWorkload) :
  kube.Kind w1 = kube.Kind w2 →
  kube.ObjectMeta w1 = kube.ObjectMeta w2 →
  (kube.PodSpec w1 = kube.PodSpec w2 →
   applyPodSchemaChecks builtInChecks conf w1
   = applyPodSchemaChecks builtInChecks conf w2
   ∧ ∀ container isInit,
       applyContainerSchemaChecks builtInChecks conf w1 container isInit
       = applyContainerSchemaChecks builtInChecks conf w2 container isInit)
  ∧ (kube.OriginalObjectJSON w1 = kube.OriginalObjectJSON w2 →
     applyControllerSchemaChecks builtInChecks conf w1
     = applyControllerSchemaChecks builtInChecks conf w2).
Proof.
  intros Hk Hm.
  assert (∀ checkID,
            negb (config.DisallowExemptions conf) && hasExemptionAnnotation w1 checkID
            = negb (config.DisallowExemptions conf) && hasExemptionAnnotation w2 checkID)
    as Hex by (intros; by rewrite (hasExemptionAnnotation_meta w1 w2)).
  split; [intros Hp; split; [|intros container isInit]|intros Hj].
  - unfold applyPodSchemaChecks. rewrite !applyPodSchemaChecks_loop_run.
    apply run_agree. split_and!; cbn; try done; [by rewrite Hm..|].
    intros. by rewrite Hp.
  - unfold applyContainerSchemaChecks. rewrite !applyContainerSchemaChecks_loop_run.
    apply run_agree. split_and!; cbn; try done; [by rewrite Hm..|].
    intros. unfold evaluateContainer, podCopy. by rewrite Hp.
  - unfold applyControllerSchemaChecks. rewrite !applyControllerSchemaChecks_loop_run.
    apply run_agree. split_and!; cbn; try done; [by rewrite Hm..|].
    intros. by rewrite Hj.
Qed.

(** ** Exempting one check *)




(** ** The built-in catalog as an argument *)

Lemma run_catalog_ext `{Actionable} (catalog1 catalog2 : gmap string config.SchemaCheck)
    conf sc checkIDs results :
  (∀ checkID, checkID ∈ checkIDs →
     lookupCheck catalog1 conf checkID = lookupCheck catalog2 conf checkID) →
  run catalog1 conf sc checkIDs results = run catalog2 conf sc checkIDs results.
Proof.
  revert results. induction checkIDs as [|checkID rest IH]; intros results Hall; [done|].
  cbn [run]. unfold step, resolveCheck. rewrite (Hall checkID) by left.
  destruct (sc_exempt sc checkID).
  { apply IH. intros ??. apply Hall. by right. }
  destruct (lookupCheck catalog2 conf checkID) as [check|]; [|done].
  destruct (negb _); [apply IH; intros ??; apply Hall; by right|].
  destruct (negb _); [apply IH; intros ??; apply Hall; by right|].
  destruct (sc_evaluate sc check); [done|].
  apply IH. intros ??. apply Hall. by right.
Qed.

(** X14.  A pass reads the built-in catalog only at the check IDs that
    have a severity and that no custom check shadows: two catalogs that
    agree there give the same result. *)
Theorem X14_builtin_catalog_read_where_configured `{Actionable} `{Predicates} `{Accessors}
    (catalog1 catalog2 : gmap string config.SchemaCheck) (conf : config.Configuration)
    (e : EntryPoint) :
  (∀ checkID,
     is_Some (config.Checks conf !! checkID) →
     config.CustomChecks conf !! checkID = None →
     catalog1 !! checkID = catalog2 !! checkID) →
  applySchemaChecks catalog1 conf e = applySchemaChecks catalog2 conf e.
Proof.
  intros Hsame. rewrite !applySchemaChecks_run.
  destruct (scopeOf conf e) as [err|sc]; [done|].
  apply run_catalog_ext. intros checkID Hin%getSortedKeys_elem_of.
  unfold lookupCheck.
  destruct (config.CustomChecks conf !! checkID) eqn:Hc; [done|]. by apply Hsame.
Qed.

(** * The further properties on examples *)

(** X1 on an example: two checks loaded from a box that has every file. *)
Lemma X1_witness :
  let loadedCheck := λ checkID,
    {| config.ID := checkID;
       config.Category := "Security";
       config.SuccessMessage := "ok";
       config.FailureMessage := "not ok";
       config.Target := config.TargetContainer;
       config.SchemaTarget := config.TargetContainer;
       config.Schema := checkID +:+ ".yaml" |} in
  let catalog : gmap string config.SchemaCheck :=
    <["hostPIDSet" := loadedCheck "hostPIDSet"]>
    (<["hostIPCSet" := loadedCheck "hostIPCSet"]> ∅) in
  @init_with Demo.schemaBox ["hostIPCSet"; "hostPIDSet"] = Some catalog
  ∧ keyedByID catalog
  ∧ size catalog = 2.
Proof.
  cbv zeta.
  match goal with |- ?hyp ∧ _ => assert hyp as Hinit by (vm_compute; reflexivity) end.
  destruct (@X1_init_catalog Demo.schemaBox _ _ Hinit) as (Hkeyed & _ & _ & Hsize).
  split_and!; [exact Hinit|exact Hkeyed|].
  apply Hsize. apply (bool_decide_unpack (NoDup ["hostIPCSet"; "hostPIDSet"])).
  vm_compute. reflexivity.
Defined.

(** X3 on an example: the second of three documents does not decode,
    after its ID has been written; the struct returned carries that ID,
    not the first document's and not the third's. *)
Lemma X3_witness :
  @yaml_Decode Demo.partialBox "hostNetworkSet.yaml"
  = ([λ check, (config.set_ID check "first", None)]
     ++ (λ check, (config.set_ID check "second",
                   Some "yaml: did not find expected key"))
     :: [λ check, (config.set_ID check "third", None)])%list
  ∧ parseCheck_loop [λ check, (config.set_ID check "first", None)] config.zero
    = (config.set_ID config.zero "first", None)
  ∧ @parseCheck Demo.partialBox "hostNetworkSet.yaml"
    = (config.set_ID config.zero "second",
       Some "Decoding schema check failed: yaml: did not find expected key").
Proof.
  assert (@yaml_Decode Demo.partialBox "hostNetworkSet.yaml"
          = ([λ check, (config.set_ID check "first", None)]
             ++ (λ check, (config.set_ID check "second",
                           Some "yaml: did not find expected key"))
             :: [λ check, (config.set_ID check "third", None)])%list)
    as Hdocs by reflexivity.
  split_and!; [exact Hdocs|reflexivity|].
  exact (proj1 (@X3_parseCheck_first_failure Demo.partialBox _ _ _ _ _ _ _
                  Hdocs eq_refl eq_refl)).
Defined.

(** X4 on an example: the pod pass records [hostIPCSet], which resolves,
    is actionable and passes. *)
Lemma X4_witness :
  let sc :=
    workloadScope Demo.conf Demo.plain config.TargetPod EmptyString false
      (λ check, @CheckPod Demo.predicates check (kube.PodSpec Demo.plain)) in
  let hostIPC := Demo.check "hostIPCSet" config.TargetPod config.TargetPod "pass" in
  let results : ResultSet := {[ "hostIPCSet" := makeResult Demo.conf hostIPC true ]} in
  keyedByID Demo.builtIn
  ∧ keyedByID (config.CustomChecks Demo.conf)
  ∧ @scopeOf Demo.predicates Demo.accessors Demo.conf (PodChecks Demo.plain) = inr sc
  ∧ @applySchemaChecks Demo.actionable Demo.predicates Demo.accessors
      Demo.builtIn Demo.conf (PodChecks Demo.plain) = (Some results, None)
  ∧ is_Some (config.Checks Demo.conf !! "hostIPCSet")
  ∧ sc_exempt sc "hostIPCSet" = false
  ∧ @resolveCheck Demo.actionable Demo.builtIn Demo.conf "hostIPCSet"
      (sc_kind sc) (sc_target sc) (sc_meta sc) (sc_containerName sc) (sc_isInit sc)
    = inr (Some hostIPC)
  ∧ sc_evaluate sc hostIPC = inr true
  ∧ results !! "hostIPCSet" = Some (makeResult Demo.conf hostIPC true).
Proof.
  cbv zeta.
  assert (@applySchemaChecks Demo.actionable Demo.predicates Demo.accessors
            Demo.builtIn Demo.conf (PodChecks Demo.plain)
          = (Some {[ "hostIPCSet" := makeResult Demo.conf
                       (Demo.check "hostIPCSet" config.TargetPod config.TargetPod "pass")
                       true ]}, None)) as Hres by (vm_compute; reflexivity).
  assert (is_Some (config.Checks Demo.conf !! "hostIPCSet")) as Hin
    by (vm_compute; eexists; reflexivity).
  assert (@resolveCheck Demo.actionable Demo.builtIn Demo.conf "hostIPCSet"
            "Deployment" config.TargetPod (kube.ObjectMeta Demo.plain) EmptyString false
          = inr (Some (Demo.check "hostIPCSet" config.TargetPod config.TargetPod "pass")))
    as Hresolve by (vm_compute; reflexivity).
  split_and!; [exact Demo_builtIn_keyed|exact Demo_conf_keyed|reflexivity|exact Hres
              |exact Hin|reflexivity|exact Hresolve|reflexivity|].
  apply (proj2 (@X4_records_exactly Demo.actionable Demo.predicates Demo.accessors
                  Demo.builtIn Demo.conf (PodChecks Demo.plain) _ _
                  Demo_builtIn_keyed Demo_conf_keyed eq_refl Hres "hostIPCSet" _)).
  split_and!; [exact Hin|reflexivity|].
  eexists _, true. split_and!; [exact Hresolve|reflexivity|reflexivity].
Defined.

(** X5 on an example: [aCustomCheck] and [myOrgCheck] both abort; the
    error of the former, which sorts first, is returned. *)
Lemma X5_witness :
  let sc :=
    workloadScope Demo.confMalformed Demo.plain config.TargetPod EmptyString false
      (λ check, @CheckPod Demo.predicates check (kube.PodSpec Demo.plain)) in
  @scopeOf Demo.predicates Demo.accessors Demo.confMalformed (PodChecks Demo.plain)
    = inr sc
  ∧ is_Some (config.Checks Demo.confMalformed !! "aCustomCheck")
  ∧ @step Demo.actionable Demo.builtIn Demo.confMalformed sc "aCustomCheck"
    = Aborted "malformed schema"
  ∧ @step Demo.actionable Demo.builtIn Demo.confMalformed sc "myOrgCheck"
    = Aborted "Check myOrgCheck not found"
  ∧ @applySchemaChecks Demo.actionable Demo.predicates Demo.accessors
      Demo.builtIn Demo.confMalformed (PodChecks Demo.plain)
    = (None, Some "malformed schema").
Proof.
  cbv zeta.
  assert (is_Some (config.Checks Demo.confMalformed !! "aCustomCheck")) as Hin
    by (vm_compute; eexists; reflexivity).
  assert (@step Demo.actionable Demo.builtIn Demo.confMalformed
            (workloadScope Demo.confMalformed Demo.plain config.TargetPod EmptyString
               false (λ check, @CheckPod Demo.predicates check (kube.PodSpec Demo.plain)))
            "aCustomCheck" = Aborted "malformed schema") as Hstep
    by (vm_compute; reflexivity).
  split_and!; [reflexivity|exact Hin|exact Hstep|vm_compute; reflexivity|].
  apply (proj2 (@X5_first_error_in_ID_order Demo.actionable Demo.predicates
                  Demo.accessors Demo.builtIn Demo.confMalformed (PodChecks Demo.plain)
                  _ eq_refl) "aCustomCheck" "malformed schema" Hin Hstep).
  intros checkID' err' Hin'%getSortedKeys_elem_of [Hle Hne].
  vm_compute in Hin'.
  repeat (apply elem_of_cons in Hin' as [->|Hin']; [by vm_compute in Hle|]).
  by apply elem_of_nil in Hin'.
Defined.

(** X6 on an example: one record for three configured check IDs. *)
Lemma X6_witness :
  let results : ResultSet :=
    {[ "hostIPCSet" := makeResult Demo.conf
         (Demo.check "hostIPCSet" config.TargetPod config.TargetPod "pass") true ]} in
  (@applySchemaChecks Demo.actionable Demo.predicates Demo.accessors
     Demo.builtIn Demo.conf (PodChecks Demo.plain)).1 = Some results
  ∧ (size results ≤ size (config.Checks Demo.conf))%nat.
Proof.
  cbv zeta.
  match goal with |- ?hyp ∧ _ => assert hyp as Hres by (vm_compute; reflexivity) end.
  split; [exact Hres|].
  exact (@X6_at_most_one_record_per_check Demo.actionable Demo.predicates Demo.accessors
           Demo.builtIn Demo.conf (PodChecks Demo.plain) _ Hres).
Defined.

Lemma confOnlyIPC_checks checkID :
  is_Some (config.Checks Demo.confOnlyIPC !! checkID) → checkID = "hostIPCSet".
Proof.
  cbn. intros Hin. destruct (decide (checkID = "hostIPCSet")) as [|Hne]; [done|].
  rewrite lookup_insert_ne, lookup_empty in Hin by done. by destruct Hin.
Qed.

(** X7 on an example: the only configured check targets pods, so the
    structural test rejects it for both targets. *)
Lemma X7_witness :
  (∀ checkID check,
     is_Some (config.Checks Demo.confOnlyIPC !! checkID) →
     lookupCheck Demo.builtIn Demo.confOnlyIPC checkID = Some check →
     @SchemaCheck_IsActionable Demo.actionable check EmptyString
       (unstructured.GetKind (Demo.ingress ∅)) false
     = @SchemaCheck_IsActionable Demo.actionable check config.TargetOther
         (unstructured.GetKind (Demo.ingress ∅)) false)
  ∧ @applyOtherSchemaChecks Demo.actionable Demo.predicates Demo.accessors
      Demo.builtIn Demo.confOnlyIPC (Demo.ingress ∅)
    = @applyArbitrarySchemaChecks Demo.actionable Demo.predicates Demo.accessors
        Demo.builtIn Demo.confOnlyIPC (Demo.ingress ∅).
Proof.
  assert (∀ checkID check,
            is_Some (config.Checks Demo.confOnlyIPC !! checkID) →
            lookupCheck Demo.builtIn Demo.confOnlyIPC checkID = Some check →
            @SchemaCheck_IsActionable Demo.actionable check EmptyString
              (unstructured.GetKind (Demo.ingress ∅)) false
            = @SchemaCheck_IsActionable Demo.actionable check config.TargetOther
                (unstructured.GetKind (Demo.ingress ∅)) false) as Hsame.
  { intros checkID check ->%confOnlyIPC_checks Hlook.
    vm_compute in Hlook. injection Hlook as <-. reflexivity. }
  split; [exact Hsame|].
  exact (@X7_other_and_arbitrary_agree Demo.actionable Demo.predicates Demo.accessors
           Demo.builtIn Demo.confOnlyIPC (Demo.ingress ∅) Hsame).
Defined.


(** X11 on an example: the record of [memoryLimitsMissing] carries the
    severity the configuration gives it. *)
Lemma X11_witness :
  let memory :=
    Demo.check "memoryLimitsMissing" config.TargetContainer config.TargetContainer
      "fail" in
  let results : ResultSet :=
    {[ "memoryLimitsMissing" := makeResult Demo.conf memory false ]} in
  keyedByID Demo.builtIn
  ∧ keyedByID (config.CustomChecks Demo.conf)
  ∧ (@applySchemaChecks Demo.actionable Demo.predicates Demo.accessors
       Demo.builtIn Demo.conf (ContainerChecks Demo.plain Demo.app false)).1
    = Some results
  ∧ results !! "memoryLimitsMissing" = Some (makeResult Demo.conf memory false)
  ∧ config.Checks Demo.conf !! "memoryLimitsMissing"
    = Some (ResultMessage.Severity (makeResult Demo.conf memory false))
  ∧ ResultMessage.Severity (makeResult Demo.conf memory false) = "danger".
Proof.
  cbv zeta.
  assert ((@applySchemaChecks Demo.actionable Demo.predicates Demo.accessors
             Demo.builtIn Demo.conf (ContainerChecks Demo.plain Demo.app false)).1
          = Some {[ "memoryLimitsMissing" := makeResult Demo.conf
                      (Demo.check "memoryLimitsMissing" config.TargetContainer
                         config.TargetContainer "fail") false ]}) as Hres
    by (vm_compute; reflexivity).
  split_and!; [exact Demo_builtIn_keyed|exact Demo_conf_keyed|exact Hres
              |apply lookup_singleton_eq| |vm_compute; reflexivity].
  exact (proj1 (proj2
           (@X11_record_contents Demo.actionable Demo.predicates Demo.accessors
              Demo.builtIn Demo.conf (ContainerChecks Demo.plain Demo.app false)
              _ "memoryLimitsMissing" _ Demo_builtIn_keyed Demo_conf_keyed Hres
              (lookup_singleton_eq _ _)))).
Defined.

(** X12 on an example: another serialised original, the same pod pass. *)
Lemma X12_witness :
  kube.Kind Demo.plain = kube.Kind Demo.otherJSON
  ∧ kube.ObjectMeta Demo.plain = kube.ObjectMeta Demo.otherJSON
  ∧ kube.PodSpec Demo.plain = kube.PodSpec Demo.otherJSON
  ∧ kube.OriginalObjectJSON Demo.plain ≠ kube.OriginalObjectJSON Demo.otherJSON
  ∧ @applyPodSchemaChecks Demo.actionable Demo.predicates Demo.builtIn Demo.conf
      Demo.plain
    = @applyPodSchemaChecks Demo.actionable Demo.predicates Demo.builtIn Demo.conf
        Demo.otherJSON.
Proof.
  split_and!; [reflexivity|reflexivity|reflexivity|intros Heq; discriminate Heq|].
  exact (proj1 (proj1 (@X12_fragment_of_each_scope Demo.actionable Demo.predicates
                         Demo.accessors Demo.builtIn Demo.conf Demo.plain Demo.otherJSON
                         eq_refl eq_refl) eq_refl)).
Defined.

(** X14 on an example: a catalog without [tlsSettingsMissing], which has
    no severity here, gives the same pod pass. *)
Lemma X14_witness :
  (∀ checkID,
     is_Some (config.Checks Demo.confOnlyIPC !! checkID) →
     config.CustomChecks Demo.confOnlyIPC !! checkID = None →
     Demo.builtIn !! checkID = delete "tlsSettingsMissing" Demo.builtIn !! checkID)
  ∧ @applySchemaChecks Demo.actionable Demo.predicates Demo.accessors
      Demo.builtIn Demo.confOnlyIPC (PodChecks Demo.plain)
    = @applySchemaChecks Demo.actionable Demo.predicates Demo.accessors
        (delete "tlsSettingsMissing" Demo.builtIn) Demo.confOnlyIPC
        (PodChecks Demo.plain).
Proof.
  assert (∀ checkID,
            is_Some (config.Checks Demo.confOnlyIPC !! checkID) →
            config.CustomChecks Demo.confOnlyIPC !! checkID = None →
            Demo.builtIn !! checkID
            = delete "tlsSettingsMissing" Demo.builtIn !! checkID) as Hsame.
  { intros checkID ->%confOnlyIPC_checks _. by rewrite lookup_delete_ne. }
  split; [exact Hsame|].
  exact (@X14_builtin_catalog_read_where_configured Demo.actionable Demo.predicates
           Demo.accessors Demo.builtIn (delete "tlsSettingsMissing" Demo.builtIn)
           Demo.confOnlyIPC (PodChecks Demo.plain) Hsame).
Defined.
